(** * The IMAP indexer of wildduck: size estimation, rebuilding, section
      resolution and content selection over a parsed MIME tree.

    The development follows the indexer module (class [Indexer] and the
    helper [filterHeaders]).  Strings are JavaScript 'binary' strings: every
    code unit is below 256, so a string is a sequence of bytes and
    [new Buffer(s, 'binary').length] is the length of the string.  An
    absent field of an object reads as [undefined]. *)

From Stdlib Require Import ZArith Ascii String List Lia Bool DecimalString DecimalNat.
From stdpp Require Import base option list strings gmap.

Local Open Scope string_scope.
Local Open Scope Z_scope.

(** ** JavaScript strings *)

Module JS.

Definition CRLF : string := String "013" (String "010" "").

(** Code unit of a character and back. *)
Definition code (c : ascii) : N := N_of_ascii c.

(** ASCII-only case mapping, as used by the [i] flag of a regular
    expression whose pattern is ASCII. *)
Definition ascii_upper (c : ascii) : ascii :=
  let n := code c in
  if ((97 <=? n) && (n <=? 122))%N then ascii_of_N (n - 32) else c.

(** [String.prototype.toLowerCase] on code units below 256: the letters
    A-Z and the Latin-1 capitals U+00C0-U+00DE (without U+00D7). *)
Definition lower_char (c : ascii) : ascii :=
  let n := code c in
  if ((65 <=? n) && (n <=? 90))%N then ascii_of_N (n + 32)
  else if ((192 <=? n) && (n <=? 222) && negb (n =? 215))%N then ascii_of_N (n + 32)
  else c.

Fixpoint toLowerCase (s : string) : string :=
  match s with
  | EmptyString => EmptyString
  | String c s' => String (lower_char c) (toLowerCase s')
  end.

(** WhiteSpace and LineTerminator code units below 256: TAB, LF, VT, FF,
    CR, SP and NBSP.  This is the class [\s] and the set removed by
    [trim]. *)
Definition isWhiteSpace (c : ascii) : bool :=
  let n := code c in
  ((n =? 9) || (n =? 10) || (n =? 11) || (n =? 12) || (n =? 13)
   || (n =? 32) || (n =? 160))%N.

Fixpoint trimStart (s : string) : string :=
  match s with
  | EmptyString => EmptyString
  | String c s' => if isWhiteSpace c then trimStart s' else s
  end.

(** [trimEnd] keeps a character when it is not white space or when
    something remains after it. *)
Fixpoint trimEnd (s : string) : string :=
  match s with
  | EmptyString => EmptyString
  | String c s' =>
      match trimEnd s' with
      | EmptyString => if isWhiteSpace c then EmptyString else String c EmptyString
      | t => String c t
      end
  end.

Definition trim (s : string) : string := trimEnd (trimStart s).

(** [s.split(sep)] for a one-character separator: never the empty list. *)
Fixpoint split (sep : ascii) (s : string) : list string :=
  match s with
  | EmptyString => [EmptyString]
  | String c s' =>
      if Ascii.eqb c sep then EmptyString :: split sep s'
      else match split sep s' with
           | seg :: segs => String c seg :: segs
           | [] => [String c EmptyString]
           end
  end.

(** [a.join(sep)] *)
Definition join (sep : string) (a : list string) : string := String.concat sep a.

(** Truthiness of a value that is a string, [undefined] or [false]. *)
Definition truthy (v : option string) : bool :=
  match v with
  | Some (String _ _) => true
  | _ => false
  end.

(** [v || ''] *)
Definition orEmpty (v : option string) : string :=
  match v with
  | Some s => s
  | None => EmptyString
  end.

(** ['' + v] for a string or [undefined]. *)
Definition toString (v : option string) : string :=
  match v with
  | Some s => s
  | None => "undefined"
  end.

(** Case-insensitive test that [p] (ASCII) is a prefix of [s]: the
    anchored pattern [/^p/i]. *)
Fixpoint prefix_ci (p s : string) : bool :=
  match p, s with
  | EmptyString, _ => true
  | String a p', String b s' => Ascii.eqb (ascii_upper a) (ascii_upper b) && prefix_ci p' s'
  | String _ _, EmptyString => false
  end.

Fixpoint eq_ci (p s : string) : bool :=
  match p, s with
  | EmptyString, EmptyString => true
  | String a p', String b s' => Ascii.eqb (ascii_upper a) (ascii_upper b) && eq_ci p' s'
  | _, _ => false
  end.

(** JavaScript numbers that the indexer computes with: integers (all far
    below 2^53) and [NaN]. *)
Inductive number : Type :=
| NaN
| Num (z : Z).

(** [a + b] on numbers *)
Definition add (a b : number) : number :=
  match a, b with
  | Num x, Num y => Num (x + y)
  | _, _ => NaN
  end.

(** a numeric field that may be [undefined] *)
Definition toNumber (v : option Z) : number :=
  match v with
  | Some z => Num z
  | None => NaN
  end.

(** [new Buffer(s, 'binary').length] *)
Definition byteLength (s : string) : Z := Z.of_nat (String.length s).

(** The first [n] bytes of [s] (all of it when it is shorter). *)
Fixpoint take (n : nat) (s : string) : string :=
  match n, s with
  | S n', String c s' => String c (take n' s')
  | _, _ => EmptyString
  end.

(** *** [Number(string)]

    The grammar StringNumericLiteral of ECMAScript on byte strings.  The
    result is kept as the exact mathematical value of the literal,
    [(-1)^negative * mantissa * 10^exp10]; rounding to a double happens
    where the value is used ([indexBefore]). *)
Inductive numeric : Type :=
| NotANumber
| Infinite (negative : bool)
| Finite (negative : bool) (mantissa : N) (exp10 : Z).

Definition digitValue (base : N) (c : ascii) : option N :=
  let n := code c in
  let v := if ((48 <=? n) && (n <=? 57))%N then Some (n - 48)%N
           else if ((97 <=? n) && (n <=? 102))%N then Some (n - 87)%N
           else if ((65 <=? n) && (n <=? 70))%N then Some (n - 55)%N
           else None in
  match v with
  | Some d => if (d <? base)%N then Some d else None
  | None => None
  end.

(** Reads the longest run of digits at the head of [s]: the value
    accumulated onto [acc], the number of digits read, and the rest. *)
Fixpoint digits (base : N) (s : string) (acc : N) (count : nat) : N * nat * string :=
  match s with
  | EmptyString => (acc, count, EmptyString)
  | String c s' =>
      match digitValue base c with
      | Some d => digits base s' (acc * base + d)%N (S count)
      | None => (acc, count, s)
      end
  end.

(** NonDecimalIntegerLiteral after its two-character prefix. *)
Definition nonDecimal (base : N) (s : string) : numeric :=
  match digits base s 0%N 0%nat with
  | (v, S _, EmptyString) => Finite false v 0
  | _ => NotANumber
  end.

(** ExponentPart (optional), which must end the literal. *)
Definition exponentPart (s : string) : option Z :=
  match s with
  | EmptyString => Some 0
  | String c s' =>
      if Ascii.eqb c "e" || Ascii.eqb c "E" then
        let '(neg, ds) := match s' with
                          | String "+" t => (false, t)
                          | String "-" t => (true, t)
                          | _ => (false, s')
                          end in
        match digits 10 ds 0%N 0%nat with
        | (v, S _, EmptyString) => Some (if neg then - Z.of_N v else Z.of_N v)
        | _ => None
        end
      else None
  end.

(** StrUnsignedDecimalLiteral *)
Definition unsignedDecimal (negative : bool) (s : string) : numeric :=
  if String.eqb s "Infinity" then Infinite negative
  else
    let '(m1, c1, r1) := digits 10 s 0%N 0%nat in
    let '(m, c2, r2) := match r1 with
                        | String "." t => digits 10 t m1 0%nat
                        | _ => (m1, 0%nat, r1)
                        end in
    match (c1 + c2)%nat, exponentPart r2 with
    | S _, Some e => Finite negative m (e - Z.of_nat c2)
    | _, _ => NotANumber
    end.

Definition Number (s : string) : numeric :=
  match trim s with
  | EmptyString => Finite false 0 0
  | String "0" (String "x" t) | String "0" (String "X" t) => nonDecimal 16 t
  | String "0" (String "o" t) | String "0" (String "O" t) => nonDecimal 8 t
  | String "0" (String "b" t) | String "0" (String "B" t) => nonDecimal 2 t
  | String "+" t => unsignedDecimal false t
  | String "-" t => unsignedDecimal true t
  | t => unsignedDecimal false t
  end.

(** Round to nearest, ties to even, of [p / q] for [0 <= p], [0 < q]. *)
Definition roundHalfEven (p q : Z) : Z :=
  let f := p / q in
  let r2 := 2 * (p mod q) in
  if r2 <? q then f
  else if q <? r2 then f + 1
  else if Z.even f then f else f + 1.

(** The double nearest to [p / q], for [1/2 <= p / q < 2^32], when it is
    an integer: the binade is [2^e], the double is [r * 2^(e - 52)]. *)
Definition nearestDoubleInteger (p q : Z) : option Z :=
  let e := if p <? q then -1 else Z.log2 (p / q) in
  let k := 52 - e in
  let r := roundHalfEven (p * 2 ^ k) q in
  if r mod 2 ^ k =? 0 then Some (r / 2 ^ k) else None.

(** The array index denoted by [x - 1] in [a[x - 1]], if any: the double
    value of [x] must be an integer from 1 to 2^32 - 1 (array indices end
    at 2^32 - 2).  Values below 1/2 and from 2^32 on never give one. *)
Definition indexBefore (x : numeric) : option nat :=
  match x with
  | Finite false m e =>
      let p := if 0 <=? e then Z.of_N m * 10 ^ e else Z.of_N m in
      let q := if 0 <=? e then 1 else 10 ^ (- e) in
      if (2 * p <? q) || (2 ^ 32 * q <=? p) then None
      else match nearestDoubleInteger p q with
           | Some n => if (1 <=? n) && (n <=? 2 ^ 32 - 1) then Some (Z.to_nat (n - 1)) else None
           | None => None
           end
  | _ => None
  end.

(** [String(i)] for a natural number below 10^21: its decimal digits. *)
Definition decimal (i : nat) : string := NilEmpty.string_of_uint (Nat.to_uint i).

End JS.

(** ** The MIME tree (produced by the parser, read-only here)

    Every field may be absent.  [parsedHeader] is a plain object used as a
    map from lower-cased header names to values; a value is a string, as
    the parser records it for a header field that occurs once. *)

#[local] Unset Elimination Schemes.
Inductive MimeNode : Type := Build_MimeNode {
  header : option (list string);
  parsedHeader : option (gmap string string);
  body : option string;
  boundary : option string;
  childNodes : option (list MimeNode);
  message : option MimeNode;
  size : option Z
}.
#[local] Set Elimination Schemes.

(** Induction that reaches the children and the nested message. *)
Section MimeNode_induction.
Variable P : MimeNode -> Prop.
Hypothesis step : forall h ph b bd cs m sz,
    from_option (Forall P) True cs ->
    from_option P True m ->
    P (Build_MimeNode h ph b bd cs m sz).

Fixpoint MimeNode_nested_ind (n : MimeNode) : P n :=
  match n with
  | Build_MimeNode h ph b bd cs m sz =>
      step h ph b bd cs m sz
        (match cs as o return from_option (Forall P) True o with
         | Some l =>
             (fix all (k : list MimeNode) : Forall P k :=
                match k with
                | [] => @List.Forall_nil _ P
                | x :: k' => @List.Forall_cons _ P x k' (MimeNode_nested_ind x) (all k')
                end) l
         | None => I
         end)
        (match m as o return from_option P True o with
         | Some n1 => MimeNode_nested_ind n1
         | None => I
         end)
  end.
End MimeNode_induction.

(** ** Header filter *)

(** [/^X-Attachment-Stream/i.test(header)] *)
Definition isAttachmentMarker (line : string) : bool :=
  JS.prefix_ci "X-Attachment-Stream" line.

(** [filterHeaders(headers)]: an absent value is the empty array. *)
Definition filterHeaders (headers : option (list string)) : list string :=
  List.filter (fun header => negb (isAttachmentMarker header)) (default [] headers).

(** ** Completions: a value, or a thrown exception *)

Inductive exn : Type :=
| TypeError.

Inductive completion (A : Type) : Type :=
| Normal (a : A)
| Throw (e : exn).
Arguments Normal {A} a.
Arguments Throw {A} e.

Definition bind {A B : Type} (c : completion A) (k : A -> completion B) : completion B :=
  match c with
  | Normal a => k a
  | Throw e => Throw e
  end.

Notation "x <- c ;; k" := (bind c (fun x => k))
  (at level 100, c at next level, right associativity).

(** [node.parsedHeader[key]]: reading a property of [undefined] throws. *)
Definition parsedHeaderGet (node : MimeNode) (key : string) : completion (option string) :=
  match parsedHeader node with
  | Some ph => Normal (ph !! key)
  | None => Throw TypeError
  end.

Definition STREAM_URL : string := "x-attachment-stream-url".
Definition STREAM_ENCODED : string := "x-attachment-stream-encoded".

(** The header block that both walks emit:
    [filterHeaders(node.header).join('\r\n') + '\r\n'] *)
Definition headerBlock (node : MimeNode) : string :=
  JS.join JS.CRLF (filterHeaders (header node)) +:+ JS.CRLF.

(** [node.size] as it is added to a number: [undefined] makes the sum NaN. *)
Definition declaredSize (node : MimeNode) : JS.number := JS.toNumber (size node).

(** ** Indexer.getSize *)

Module GetSize.

(** The variables captured by the closures [append] and [walk]. *)
Record state : Type := State {
  size : JS.number;
  first : bool;
  root : bool
}.

Definition init : state := State (JS.Num 0) true true.

(** [append(data, force)]; [data] is a string, [false] or missing. *)
Definition append (data : option string) (force : bool) (st : state) : state :=
  if JS.truthy data || force then
    State (JS.add (size st)
             (JS.Num (JS.byteLength ((if first st then "" else JS.CRLF) +:+ JS.orEmpty data))))
          false (root st)
  else st.

(** [finalize] of the node being walked, up to its call of [next]. *)
Definition finalize (node : MimeNode) (st : state) : state :=
  let st := if JS.truthy (boundary node)
            then append (Some ("--" +:+ JS.toString (boundary node) +:+ "--" +:+ JS.CRLF)) false st
            else st in
  append None false st.

(** [processChildNodes] of the node being walked, running over the
    children that are left; [pos < node.childNodes.length] after the
    increment says that one more is left.  [walk] is the walk of a
    child. *)
Definition processChildNodes (walk : MimeNode -> state -> completion state)
    (node : MimeNode) : list MimeNode -> state -> completion state :=
  fix processChildNodes (rest : list MimeNode) (st : state) : completion state :=
    match rest with
    | [] => Normal (finalize node st)
    | childNode :: rest' =>
        st <- walk childNode st ;;
        let st := match rest' with
                  | _ :: _ => append (Some ("--" +:+ JS.toString (boundary node))) false st
                  | [] => st
                  end in
        processChildNodes rest' st
    end.

(** The first statement of [walk]: the header block, unless this is the
    root of a text-only walk. *)
Definition enter (textOnly : bool) (node : MimeNode) (st : state) : state :=
  let st := if negb textOnly || negb (root st)
            then append (Some (headerBlock node)) false st else st in
  State (size st) (first st) false.

(** [node.body || node.parsedHeader['x-attachment-stream-url']] *)
Definition hasContent (node : MimeNode) : completion bool :=
  if JS.truthy (body node) then Normal true
  else url <- parsedHeaderGet node STREAM_URL ;; Normal (JS.truthy url).

(** [walk(node, next)], in direct style: the result is the state in which
    [next] is called. *)
Fixpoint walk (textOnly : bool) (node : MimeNode) (st : state) {struct node}
  : completion state :=
  let st := enter textOnly node st in
  content <- hasContent node ;;
  let st := if content : bool
            then let st := append None true st in
                 State (JS.add (size st) (declaredSize node)) (first st) (root st)
            else st in
  let children (st : state) : completion state :=
    match childNodes node with
    | Some nodes => processChildNodes (walk textOnly) node nodes st
    | None => Normal (finalize node st)
    end in
  if JS.truthy (boundary node)
  then children (append (Some ("--" +:+ JS.toString (boundary node))) false st)
  else
    url <- parsedHeaderGet node STREAM_URL ;;
    if JS.truthy url then Normal (finalize node st) else children st.

End GetSize.

(** [getSize(mimeTree, textOnly)] *)
Definition getSize (mimeTree : MimeNode) (textOnly : bool) : completion JS.number :=
  st <- GetSize.walk textOnly mimeTree GetSize.init ;;
  Normal (GetSize.size st).

(** ** The collaborators of the rebuilder *)

(** What the remote fetcher delivers for a URL: the bytes of the stream,
    and whether the stream then emits ['error'] instead of ending. *)
Record response : Type := Response {
  delivered : string;
  failed : bool
}.

(** The world outside the indexer: [fetch] is nodemailer-fetch on the
    configured [fetchOptions], [Encoder] is what [libbase64.Encoder]
    makes of a whole stream. *)
Record World : Type := Build_World {
  fetch : string -> response;
  Encoder : string -> string
}.

(** Modelled from the spec: [LengthLimiter] (the module '../length-limiter'
    is not among the sources).  Section 6: "wraps a byte stream, passes through at
    most N bytes, signals completion at N bytes or source exhaustion,
    whichever first".  Without a bound there is nothing to compare with
    and all bytes pass. *)
Definition LengthLimiter (expectedLength : option Z) (source : string) : string :=
  match expectedLength with
  | Some n => JS.take (Z.to_nat n) source
  | None => source
  end.

(** [url.replace(/^<|>$/g, '')] *)
Fixpoint dropTrailingGt (s : string) : string :=
  match s with
  | EmptyString => EmptyString
  | String c EmptyString => if Ascii.eqb c ">" then EmptyString else s
  | String c s' => String c (dropTrailingGt s')
  end.

Definition stripAngleBrackets (s : string) : string :=
  dropTrailingGt (match s with
                  | String "<" s' => s'
                  | _ => s
                  end).

(** [/^\s*YES\s*$/i.test(v)]; [undefined] is tested as the string
    "undefined". *)
Definition isYes (v : option string) : bool :=
  JS.eq_ci "YES" (JS.trim (JS.toString v)).

(** ** Indexer.rebuild *)

Module Rebuild.

(** The variables captured by [append] and [walk]; [res] holds the
    chunks written to the PassThrough stream, oldest first. *)
Record state : Type := State {
  res : list string;
  first : bool;
  root : bool;
  remainder : string
}.

Definition init : state := State [] true true "".

Definition write (chunk : string) (st : state) : state :=
  State (res st ++ [chunk]) (first st) (root st) (remainder st).

(** [append(data, force)] *)
Definition append (data : option string) (force : bool) (st : state) : state :=
  let st := if JS.truthy (Some (remainder st)) || JS.truthy data || force then
              let st := write ((if first st then "" else JS.CRLF)
                               +:+ remainder st +:+ JS.orEmpty data) st in
              State (res st) false (root st) (remainder st)
            else st in
  State (res st) (first st) (root st) "".

Definition finalize (node : MimeNode) (st : state) : state :=
  let st := if JS.truthy (boundary node)
            then append (Some ("--" +:+ JS.toString (boundary node) +:+ "--" +:+ JS.CRLF)) false st
            else st in
  append None false st.

(** How a walk leaves the stream: [next] is called in state [st]; or an
    ['error'] event was emitted on [res] and nothing is written after it;
    or a callback threw. *)
Inductive outcome : Type :=
| Next (st : state)
| Error (st : state)
| Uncaught (st : state) (e : exn).

Definition andThen (o : outcome) (k : state -> outcome) : outcome :=
  match o with
  | Next st => k st
  | other => other
  end.

(** The contents of an externally stored node, as piped into [res]:
    [fetchStream.pipe(b64encoder).pipe(limiter)] or
    [fetchStream.pipe(limiter)]. *)
Definition piped (w : World) (node : MimeNode) (streamUrl : string) (streamEncoded : bool) : string :=
  let fetched := delivered (fetch w streamUrl) in
  LengthLimiter (size node) (if streamEncoded then fetched else Encoder w fetched).

(** [processChildNodes] of the node being walked, over the children
    that are left; [walk] is the walk of a child. *)
Definition processChildNodes (walk : MimeNode -> state -> outcome)
    (node : MimeNode) : list MimeNode -> state -> outcome :=
  fix processChildNodes (rest : list MimeNode) (st : state) : outcome :=
    match rest with
    | [] => Next (finalize node st)
    | childNode :: rest' =>
        andThen (walk childNode st) (fun st =>
        let st := match rest' with
                  | _ :: _ => append (Some ("--" +:+ JS.toString (boundary node))) false st
                  | [] => st
                  end in
        processChildNodes rest' st)
    end.

(** The statements of [walk] before [finalize] is defined: the header
    block, [root = false] and [remainder = node.body || '']. *)
Definition enter (textOnly : bool) (node : MimeNode) (st : state) : state :=
  let st := if negb textOnly || negb (root st)
            then append (Some (headerBlock node)) false st else st in
  State (res st) (first st) false (JS.orEmpty (body node)).

(** [walk(node, next)] in direct style; the calls through [setImmediate]
    run in the order in which they are scheduled. *)
Fixpoint walk (w : World) (textOnly : bool) (node : MimeNode) (st : state) {struct node}
  : outcome :=
  let st := enter textOnly node st in
  let children (st : state) : outcome :=
    match childNodes node with
    | Some nodes => processChildNodes (walk w textOnly) node nodes st
    | None => Next (finalize node st)
    end in
  if JS.truthy (boundary node)
  then children (append (Some ("--" +:+ JS.toString (boundary node))) false st)
  else
    match parsedHeaderGet node STREAM_URL with
    | Throw e => Uncaught st e
    | Normal url =>
        if JS.truthy url then
          let streamUrl := stripAngleBrackets (JS.orEmpty url) in
          match parsedHeaderGet node STREAM_ENCODED with
          | Throw e => Uncaught st e
          | Normal encoded =>
              let streamEncoded := isYes encoded in
              let st := append None true st in
              let st := write (piped w node streamUrl streamEncoded) st in
              if failed (fetch w streamUrl)
              then Error st
              else Next (finalize node st)
          end
        else children st
    end.

End Rebuild.

(** The stream returned by [rebuild], observed until it is over. *)
Inductive ending : Type :=
| Ended            (* [res.end()] was called *)
| Failed           (* an ['error'] event was emitted *)
| Crashed.         (* a scheduled callback threw *)

Record stream : Type := Build_stream {
  chunks : list string;
  status : ending
}.

Record rebuilt : Type := Build_rebuilt {
  value : stream;
  expectedLength : JS.number
}.

Definition runWalk (w : World) (mimeTree : MimeNode) (textOnly : bool) : stream :=
  match Rebuild.walk w textOnly mimeTree Rebuild.init with
  | Rebuild.Next st => Build_stream (Rebuild.res st) Ended
  | Rebuild.Error st => Build_stream (Rebuild.res st) Failed
  | Rebuild.Uncaught st _ => Build_stream (Rebuild.res st) Crashed
  end.

(** [rebuild(mimeTree, textOnly)]: [getSize] runs before the object is
    returned, so its exception is the exception of [rebuild]. *)
Definition rebuild (w : World) (mimeTree : MimeNode) (textOnly : bool) : completion rebuilt :=
  expected <- getSize mimeTree textOnly ;;
  Normal (Build_rebuilt (runWalk w mimeTree textOnly) expected).

(** All bytes of a stream, and their number. *)
Definition materialize (s : stream) : string := String.concat "" (chunks s).

Fixpoint totalBytes (l : list string) : Z :=
  match l with
  | [] => 0
  | chunk :: l' => JS.byteLength chunk + totalBytes l'
  end.

(** ** Indexer.resolveContentNode *)

(** [a[x]] for the number [x = Number(s) - 1] *)
Definition elementBefore {A : Type} (a : list A) (s : string) : option A :=
  i ← JS.indexBefore (JS.Number s); a !! i.

(** [if (contentNode.message) { contentNode = contentNode.message; }] *)
Definition redirect (contentNode : MimeNode) : MimeNode :=
  match message contentNode with
  | Some nested => nested
  | None => contentNode
  end.

(** The loop [while ((pathNumber = pathNumbers.shift()))]: it ends at the
    end of the array and at the first empty string, both falsy.  [None] is
    the result [false]. *)
Fixpoint resolveLoop (pathNumbers : list string) (contentNode : MimeNode) : option MimeNode :=
  match pathNumbers with
  | [] => Some contentNode
  | EmptyString :: _ => Some contentNode
  | pathNumber :: pathNumbers' =>
      let contentNode := redirect contentNode in
      match childNodes contentNode with
      | Some nodes =>
          match elementBefore nodes pathNumber with
          | Some child => resolveLoop pathNumbers' child
          | None => None
          end
      | None => None
      end
  end.

Definition resolveContentNode (mimeTree : MimeNode) (path : string) : option MimeNode :=
  let path := match childNodes mimeTree with
              | None => if String.eqb path "1" then "" else path
              | Some _ => path
              end in
  resolveLoop (JS.split "." path) mimeTree.

(** ** Indexer.getContents *)

Record selector : Type := Build_selector {
  path : option string;
  type : string;
  headers : option (list string)
}.

Inductive contents : Type :=
| Text (s : string)
| Stream (r : rebuilt).

(** [line.split(':').shift().toLowerCase().trim()] *)
Definition headerKey (line : string) : string :=
  JS.trim (JS.toLowerCase (hd "" (JS.split ":" line))).

(** [selector.headers.indexOf(key) >= 0] *)
Definition indexOfFound (headers : list string) (key : string) : bool :=
  existsb (String.eqb key) headers.

(** [!selector.headers || !selector.headers.length] *)
Definition noHeaders (sel : selector) : bool :=
  match headers sel with
  | Some (_ :: _) => false
  | _ => true
  end.

(** The variable [node] after [if (selector.path) { node = ... }].  The
    selector is the object that [getContents] works with after it has
    replaced a string by [{type: selector}] and a missing selector by
    [{type: ''}]. *)
Definition selectedNode (mimeTree : MimeNode) (sel : selector) : option MimeNode :=
  if JS.truthy (path sel) then resolveContentNode mimeTree (JS.orEmpty (path sel))
  else Some mimeTree.

Definition getContents (w : World) (mimeTree : MimeNode) (sel : selector)
  : completion contents :=
  let hasPath := JS.truthy (path sel) in
  match selectedNode mimeTree sel with
  | None => Normal (Text "")
  | Some node =>
      let blankLine := JS.CRLF +:+ JS.CRLF in
      let streamOf (n : MimeNode) (textOnly : bool) :=
        r <- rebuild w n textOnly ;; Normal (Stream r) in
      if String.eqb (type sel) "" || String.eqb (type sel) "content" then
        if negb hasPath then streamOf node false else streamOf node true
      else if String.eqb (type sel) "header" then
        if negb hasPath then
          Normal (Text (JS.join JS.CRLF (filterHeaders (header node)) +:+ blankLine))
        else match message node with
             | Some nested =>
                 Normal (Text (JS.join JS.CRLF (default [] (header nested)) +:+ blankLine))
             | None => Normal (Text "")
             end
      else if String.eqb (type sel) "header.fields" then
        if noHeaders sel then Normal (Text blankLine)
        else Normal (Text (JS.join JS.CRLF
                             (List.filter (fun line => indexOfFound (default [] (headers sel)) (headerKey line))
                                (filterHeaders (header node))) +:+ blankLine))
      else if String.eqb (type sel) "header.fields.not" then
        if noHeaders sel then
          Normal (Text (JS.join JS.CRLF (filterHeaders (header node)) +:+ blankLine))
        else Normal (Text (JS.join JS.CRLF
                             (List.filter (fun line => negb (indexOfFound (default [] (headers sel)) (headerKey line)))
                                (filterHeaders (header node))) +:+ blankLine))
      else if String.eqb (type sel) "mime" then
        Normal (Text (JS.join JS.CRLF (filterHeaders (header node)) +:+ blankLine))
      else if String.eqb (type sel) "text" then
        if negb hasPath then streamOf node true
        else match message node with
             | Some nested => streamOf nested true
             | None => Normal (Text "")
             end
      else Normal (Text "")
  end.

(** ** Indexer.bodyQuery: what the callback receives *)

Inductive callbackArgs : Type :=
| CallbackError
| CallbackData (buffer : string)
| NoCallback.

Definition bodyQuery (w : World) (mimeTree : MimeNode) (sel : selector)
  : completion callbackArgs :=
  data <- getContents w mimeTree sel ;;
  match data with
  | Stream r =>
      match status (value r) with
      | Ended => Normal (CallbackData (materialize (value r)))
      | Failed => Normal CallbackError
      | Crashed => Normal NoCallback
      end
  | Text s => Normal (CallbackData s)
  end.

(** ** Vocabulary of the statements *)

Definition nonEmpty (s : string) : bool :=
  match s with
  | EmptyString => false
  | String _ _ => true
  end.

(** The segments of a path before its first empty segment. *)
Fixpoint beforeEmpty (segments : list string) : list string :=
  match segments with
  | [] => []
  | seg :: rest => if nonEmpty seg then seg :: beforeEmpty rest else []
  end.

Definition isDecimalDigit (c : ascii) : bool :=
  ((48 <=? JS.code c) && (JS.code c <=? 57))%N.

Fixpoint allDigits (s : string) : bool :=
  match s with
  | EmptyString => true
  | String c s' => isDecimalDigit c && allDigits s'
  end.

Definition isSome {A : Type} (o : option A) : bool :=
  match o with
  | Some _ => true
  | None => false
  end.

(** Truthiness of the marker [x-attachment-stream-url] of a node that has
    a [parsedHeader]. *)
Definition hasStreamUrl (node : MimeNode) : bool :=
  match parsedHeader node with
  | Some ph => JS.truthy (ph !! STREAM_URL)
  | None => false
  end.

(** The trees on which [getSize] computes an integer: every node has a
    [parsedHeader] object, and a node with content (a body or the marker)
    has a [size]. *)
Fixpoint measurable (node : MimeNode) : bool :=
  isSome (parsedHeader node)
  && (if JS.truthy (body node) || hasStreamUrl node then isSome (size node) else true)
  && match childNodes node with
     | Some nodes => forallb measurable nodes
     | None => true
     end.

(** What the remote source offers to the limiter for a node with the
    marker: the fetched bytes, base64-encoded unless marked as encoded. *)
Definition offered (w : World) (node : MimeNode) : string :=
  match parsedHeader node with
  | Some ph =>
      let fetched := delivered (fetch w (stripAngleBrackets (JS.orEmpty (ph !! STREAM_URL)))) in
      if isYes (ph !! STREAM_ENCODED) then fetched else Encoder w fetched
  | None => EmptyString
  end.

Definition fetchFails (w : World) (node : MimeNode) : bool :=
  match parsedHeader node with
  | Some ph => failed (fetch w (stripAngleBrackets (JS.orEmpty (ph !! STREAM_URL))))
  | None => false
  end.

Definition hasChildren (node : MimeNode) : bool :=
  match childNodes node with
  | Some (_ :: _) => true
  | _ => false
  end.

(** The invariants of the data model on one node: at most one of
    non-empty childNodes, a body, or the marker; [size] is the byte length
    of the body, or of what the remote source offers without failing. *)
Definition nodeInvariant (w : World) (node : MimeNode) : bool :=
  isSome (parsedHeader node)
  && negb (hasChildren node && JS.truthy (body node))
  && negb (hasChildren node && hasStreamUrl node)
  && negb (JS.truthy (body node) && hasStreamUrl node)
  && (if JS.truthy (body node)
      then bool_decide (size node = Some (JS.byteLength (JS.orEmpty (body node))))
      else true)
  && (if hasStreamUrl node
      then bool_decide (size node = Some (JS.byteLength (offered w node)))
           && negb (fetchFails w node)
      else true).

Fixpoint treeInvariant (w : World) (node : MimeNode) : bool :=
  nodeInvariant w node
  && match childNodes node with
     | Some nodes => forallb (treeInvariant w) nodes
     | None => true
     end.

(** The further condition under which the estimate is exact: a node with
    a boundary holds no content of its own. *)
Fixpoint boundaryWithoutContent (node : MimeNode) : bool :=
  (if JS.truthy (boundary node)
   then negb (JS.truthy (body node)) && negb (hasStreamUrl node)
   else true)
  && match childNodes node with
     | Some nodes => forallb boundaryWithoutContent nodes
     | None => true
     end.

(** The estimate in a state of [getSize] is an integer. *)
Definition isNum (st : GetSize.state) : Prop := exists z, GetSize.size st = JS.Num z.

(** The two walks agree when the estimate is the number of bytes written
    so far, the flags coincide and [rem] is the pending remainder. *)
Definition agreeWith (rem : string) (s : GetSize.state) (r : Rebuild.state) : Prop :=
  GetSize.size s = JS.Num (totalBytes (Rebuild.res r)) /\
  GetSize.first s = Rebuild.first r /\
  GetSize.root s = Rebuild.root r /\
  Rebuild.remainder r = rem.

Definition agree (s : GetSize.state) (r : Rebuild.state) : Prop := agreeWith "" s r.


(** ** Vocabulary of the further properties *)

(** The statements of [walk] in [rebuild] after the header block has been
    written and [remainder] has been set: the body of the function from
    [if (node.boundary)] on. *)
Definition afterEnter (w : World) (textOnly : bool) (node : MimeNode) (st : Rebuild.state)
  : Rebuild.outcome :=
  let children (st : Rebuild.state) : Rebuild.outcome :=
    match childNodes node with
    | Some nodes => Rebuild.processChildNodes (Rebuild.walk w textOnly) node nodes st
    | None => Rebuild.Next (Rebuild.finalize node st)
    end in
  if JS.truthy (boundary node)
  then children (Rebuild.append (Some ("--" +:+ JS.toString (boundary node))) false st)
  else
    match parsedHeaderGet node STREAM_URL with
    | Throw e => Rebuild.Uncaught st e
    | Normal url =>
        if JS.truthy url then
          let streamUrl := stripAngleBrackets (JS.orEmpty url) in
          match parsedHeaderGet node STREAM_ENCODED with
          | Throw e => Rebuild.Uncaught st e
          | Normal encoded =>
              let streamEncoded := isYes encoded in
              let st := Rebuild.append None true st in
              let st := Rebuild.write (Rebuild.piped w node streamUrl streamEncoded) st in
              if failed (fetch w streamUrl)
              then Rebuild.Error st
              else Rebuild.Next (Rebuild.finalize node st)
          end
        else children st
    end.

(** The chunks of a stream with the separator put in front of the first. *)
Definition separated (l : list string) : list string :=
  match l with
  | [] => []
  | chunk :: l' => (JS.CRLF +:+ chunk) :: l'
  end.

Definition nothingWritten (l : list string) : bool :=
  match l with
  | [] => true
  | _ :: _ => false
  end.

(** Two states of the rebuilder, the first of a walk that has written
    [pre] before, the second of the same walk started on an empty stream. *)
Definition shifted (pre : list string) (a b : Rebuild.state) : Prop :=
  Rebuild.remainder a = Rebuild.remainder b /\
  Rebuild.root a = false /\ Rebuild.root b = false /\
  Rebuild.first a = false /\
  Rebuild.first b = nothingWritten (Rebuild.res b) /\
  Rebuild.res a = (pre ++ separated (Rebuild.res b))%list.

Definition shiftedOutcome (pre : list string) (a b : Rebuild.outcome) : Prop :=
  match a, b with
  | Rebuild.Next sa, Rebuild.Next sb => shifted pre sa sb
  | Rebuild.Error sa, Rebuild.Error sb => shifted pre sa sb
  | Rebuild.Uncaught sa _, Rebuild.Uncaught sb _ => shifted pre sa sb
  | _, _ => False
  end.





(** The integers up to 2^53 are numbers of the code, and a sum of two of
    them that stays in this range is computed without rounding. *)
Definition MAX_EXACT : Z := 2 ^ 53.

(** A number that [getSize] computes without rounding: [NaN], or an
    integer from 0 to 2^53. *)
Definition exact (n : JS.number) : Prop :=
  match n with
  | JS.Num z => 0 <= z <= MAX_EXACT
  | JS.NaN => True
  end.



(** A tree in which no node carries the marker of external content. *)
Fixpoint withoutMarker (node : MimeNode) : bool :=
  negb (hasStreamUrl node)
  && match childNodes node with
     | Some nodes => forallb withoutMarker nodes
     | None => true
     end.

(** [node] is a node of [tree]: the tree itself, or a node of one of its
    children or of its nested message. *)
Inductive within (node : MimeNode) : MimeNode -> Prop :=
| within_self : within node node
| within_child (tree : MimeNode) (nodes : list MimeNode) (child : MimeNode) :
    childNodes tree = Some nodes -> In child nodes -> within node child -> within node tree
| within_message (tree nested : MimeNode) :
    message tree = Some nested -> within node nested -> within node tree.

(** The closing delimiter of a multipart node, as a chunk of the stream. *)
Definition closingChunk (node : MimeNode) : string :=
  JS.CRLF +:+ "--" +:+ JS.toString (boundary node) +:+ "--" +:+ JS.CRLF.

(** A pattern of characters whose upper-case forms are ASCII. *)
Fixpoint asciiPattern (p : string) : bool :=
  match p with
  | EmptyString => true
  | String a p' => (JS.code (JS.ascii_upper a) <? 128)%N && asciiPattern p'
  end.

(** ** Example worlds and trees *)

Module Examples.

(** RFC 4648 base64 of a whole byte string (no line wrapping). *)
Definition b64char (n : N) : ascii :=
  if (n <? 26)%N then ascii_of_N (65 + n)
  else if (n <? 52)%N then ascii_of_N (97 + (n - 26))
  else if (n <? 62)%N then ascii_of_N (48 + (n - 52))
  else if (n =? 62)%N then "+"%char else "/"%char.

Fixpoint base64 (s : string) : string :=
  match s with
  | EmptyString => EmptyString
  | String a EmptyString =>
      let x := JS.code a in
      String (b64char (x / 4)) (String (b64char (x mod 4 * 16)) "==")
  | String a (String b EmptyString) =>
      let x := JS.code a in
      let y := JS.code b in
      String (b64char (x / 4)) (String (b64char (x mod 4 * 16 + y / 16))
        (String (b64char (y mod 16 * 4)) "="))
  | String a (String b (String c s')) =>
      let x := JS.code a in
      let y := JS.code b in
      let z := JS.code c in
      String (b64char (x / 4)) (String (b64char (x mod 4 * 16 + y / 16))
        (String (b64char (y mod 16 * 4 + z / 64)) (String (b64char (z mod 64)) (base64 s'))))
  end%N.

(** A remote store that serves one attachment and fails elsewhere. *)
Definition store (url : string) : response :=
  if String.eqb url "http://store/att1" then Response "Hello, world!!" false
  else Response "" true.

Definition world : World := Build_World store base64.

Definition leaf (h : list string) (ph : gmap string string) (b : string) : MimeNode :=
  Build_MimeNode (Some h) (Some ph) (Some b) None None None (Some (JS.byteLength b)).

(** The single-part message of the scenario. *)
Definition simple : MimeNode :=
  leaf ["Subject: hi"; "Content-Type: text/plain"]
       {[ "subject" := "hi"; "content-type" := "text/plain" ]}
       "Hello".

End Examples.

Module Scenario.
Import Examples.

(** A multipart root with a single text part. *)
Definition oneChild : MimeNode :=
  Build_MimeNode (Some ["Content-Type: multipart/mixed; boundary=b"])
                 (Some {[ "content-type" := "multipart/mixed; boundary=b" ]})
                 None (Some "b")
                 (Some [leaf ["Content-Type: text/plain"] {[ "content-type" := "text/plain" ]} "Hi"])
                 None None.

(** A forwarded message whose own header carries the internal markers. *)
Definition forwarded : MimeNode :=
  Build_MimeNode (Some ["X-Attachment-Stream-Url: <http://store/att1>"; "Subject: inner"])
                 (Some {[ STREAM_URL := "<http://store/att1>"; "subject" := "inner" ]})
                 None None None None (Some 12).

(** A multipart root whose only part is a message/rfc822 part holding
    [forwarded]. *)
Definition withNested : MimeNode :=
  Build_MimeNode (Some ["Content-Type: multipart/mixed; boundary=b"])
                 (Some {[ "content-type" := "multipart/mixed; boundary=b" ]})
                 None (Some "b")
                 (Some [Build_MimeNode (Some ["Content-Type: message/rfc822"])
                                       (Some {[ "content-type" := "message/rfc822" ]})
                                       (Some "raw") None None (Some forwarded) (Some 3)])
                 None None.

(** A multipart root whose only part is a message/rfc822 part; the
    message inside is itself multipart with two text parts. *)
Definition forwardedMultipart : MimeNode :=
  Build_MimeNode (Some ["Content-Type: multipart/mixed; boundary=b"])
                 (Some {[ "content-type" := "multipart/mixed; boundary=b" ]})
                 None (Some "b")
                 (Some [Build_MimeNode (Some ["Content-Type: message/rfc822"])
                          (Some {[ "content-type" := "message/rfc822" ]})
                          (Some "raw") None None
                          (Some (Build_MimeNode (Some ["Content-Type: multipart/mixed; boundary=c"])
                                   (Some {[ "content-type" := "multipart/mixed; boundary=c" ]})
                                   None (Some "c")
                                   (Some [leaf ["Content-Type: text/plain"] ∅ "one";
                                          leaf ["Content-Type: text/plain"] ∅ "two"])
                                   None None))
                          (Some 3)])
                 None None.

(** An externally stored attachment of declared size 12, not marked as
    already encoded. *)
Definition attachmentHeader : gmap string string :=
  {[ STREAM_URL := "<http://store/att1>" ]}.

Definition attachment : MimeNode :=
  Build_MimeNode (Some ["Content-Type: application/octet-stream";
                        "X-Attachment-Stream-Url: <http://store/att1>"])
                 (Some attachmentHeader) None None None None (Some 12).

(** A part of which the parser has recorded nothing but the children. *)
Definition bare : MimeNode :=
  Build_MimeNode None (Some ∅) None None
                 (Some [Build_MimeNode None (Some ∅) None None None None None]) None None.

(** A node without [parsedHeader], and a node with a body but no [size]. *)
Definition noParsedHeader : MimeNode :=
  Build_MimeNode (Some ["Subject: hi"]) None None None None None None.

Definition noSize : MimeNode :=
  Build_MimeNode (Some ["Subject: hi"]) (Some ∅) (Some "Hello") None None None None.

(** A message declared as multipart in which no part was found: the
    text is the body of the node, next to its boundary. *)
Definition declaredMultipart : MimeNode :=
  Build_MimeNode (Some ["Content-Type: multipart/mixed; boundary=b"])
                 (Some {[ "content-type" := "multipart/mixed; boundary=b" ]})
                 (Some "preamble") (Some "b") (Some []) None (Some 8).

(** The same attachment, declared with the size of its encoded form. *)
Definition exactAttachment : MimeNode :=
  Build_MimeNode (Some ["Content-Type: application/octet-stream";
                        "X-Attachment-Stream-Url: <http://store/att1>"])
                 (Some attachmentHeader) None None None None (Some 20).

(** A root that has a child of its own and also carries a nested message
    with two parts. *)
Definition rootWithMessage : MimeNode :=
  Build_MimeNode (Some ["Content-Type: multipart/mixed; boundary=b"]) (Some ∅)
                 None (Some "b")
                 (Some [leaf ["Content-Type: text/plain"] ∅ "own"])
                 (Some (Build_MimeNode (Some ["Content-Type: multipart/mixed; boundary=c"]) (Some ∅)
                          None (Some "c")
                          (Some [leaf ["Content-Type: text/plain"] ∅ "one";
                                 leaf ["Content-Type: text/plain"] ∅ "two"])
                          None None))
                 None.

Definition expectedSimple : string :=
  "Subject: hi" +:+ JS.CRLF +:+ "Content-Type: text/plain" +:+ JS.CRLF +:+ JS.CRLF +:+ "Hello".

End Scenario.

(** * Properties *)

(** ** The primitives on examples *)

Example split_examples :
  JS.split "." "1.2.3" = ["1"; "2"; "3"] /\ JS.split "." "" = [""] /\
  JS.split "." "1..2" = ["1"; ""; "2"] /\ JS.split "." ".2" = [""; "2"] /\
  JS.split "." "1." = ["1"; ""] /\ JS.split ":" "Subject: a:b" = ["Subject"; " a"; "b"].
Proof. repeat split. Qed.

Example Number_examples :
  JS.indexBefore (JS.Number "1") = Some 0%nat /\
  JS.indexBefore (JS.Number "0") = None /\
  JS.indexBefore (JS.Number " 12 ") = Some 11%nat /\
  JS.indexBefore (JS.Number "012") = Some 11%nat /\
  JS.indexBefore (JS.Number "1e1") = Some 9%nat /\
  JS.indexBefore (JS.Number "15e-1") = None /\
  JS.indexBefore (JS.Number "0x10") = Some 15%nat /\
  JS.indexBefore (JS.Number "-1") = None /\
  JS.indexBefore (JS.Number "abc") = None /\
  JS.indexBefore (JS.Number "1 2") = None /\
  JS.indexBefore (JS.Number "Infinity") = None /\
  JS.decimal 120 = "120" /\ JS.decimal 0 = "0".
Proof. vm_compute. repeat split. Qed.

Example marker_examples :
  isAttachmentMarker "X-Attachment-Stream-Url: <http://store/att1>" = true /\
  isAttachmentMarker "x-attachment-stream-encoded: YES" = true /\
  isAttachmentMarker "Subject: X-Attachment-Stream" = false /\
  isAttachmentMarker " X-Attachment-Stream-Url: x" = false /\
  isYes (Some " yes ") = true /\ isYes (Some "yes, no") = false /\ isYes None = false /\
  stripAngleBrackets "<http://store/att1>" = "http://store/att1" /\
  stripAngleBrackets "http://store/a>b" = "http://store/a>b" /\
  headerKey "Content-Type : text/plain" = "content-type".
Proof. vm_compute. repeat split. Qed.

(** ** Header filter *)

Lemma filterHeaders_no_marker (h : option (list string)) :
  Forall (fun line => isAttachmentMarker line = false) (filterHeaders h).
Proof.
  unfold filterHeaders. induction (default [] h) as [|x l IH]; simpl.
  - constructor.
  - destruct (isAttachmentMarker x) eqn:E; simpl; [exact IH | constructor; assumption].
Qed.

Lemma filter_all_kept {A : Type} (f : A -> bool) (l : list A) :
  Forall (fun x => f x = true) l -> List.filter f l = l.
Proof.
  induction 1 as [|x l Hx _ IH]; simpl; [reflexivity|].
  rewrite Hx, IH. reflexivity.
Qed.

(** C9: filtering an already filtered header sequence changes nothing, and
    the result of the second pass holds no attachment-marker line. *)
Theorem filterHeaders_idempotent (h : option (list string)) :
  filterHeaders (Some (filterHeaders h)) = filterHeaders h /\
  Forall (fun line => isAttachmentMarker line = false)
         (filterHeaders (Some (filterHeaders h))).
Proof.
  assert (E : filterHeaders (Some (filterHeaders h)) = filterHeaders h).
  { unfold filterHeaders at 1. simpl. apply filter_all_kept.
    eapply Forall_impl; [apply filterHeaders_no_marker|].
    intros line Hl. simpl in Hl. rewrite Hl. reflexivity. }
  split; [exact E|]. rewrite E. apply filterHeaders_no_marker.
Qed.

(** ** Content selection *)

(** C7 (amended): the single-part message with the two header lines and
    the body "Hello" is selected by type "content" as exactly
    "Subject: hi\r\nContent-Type: text/plain\r\n\r\nHello", and getSize
    returns the byte length of that sequence, which is 46. *)
Theorem simple_message_content (w : World) :
  bodyQuery w Examples.simple (Build_selector None "content" None)
  = Normal (CallbackData Scenario.expectedSimple) /\
  getSize Examples.simple false = Normal (JS.Num (JS.byteLength Scenario.expectedSimple)) /\
  JS.byteLength Scenario.expectedSimple = 46.
Proof. repeat split; vm_compute; reflexivity. Qed.

(** C7 as stated fails: the estimate of the scenario is not 45. *)
Lemma simple_message_size_not_45 :
  ~ (bodyQuery Examples.world Examples.simple (Build_selector None "content" None)
     = Normal (CallbackData Scenario.expectedSimple) /\
     getSize Examples.simple false = Normal (JS.Num 45)).
Proof. intros [_ H]. vm_compute in H. discriminate H. Qed.

(** On a root with one child and no nested message the path "9.9" does
    not resolve. *)
Lemma nine_nine_unresolved (tree child : MimeNode) :
  childNodes tree = Some [child] -> message tree = None ->
  resolveContentNode tree "9.9" = None.
Proof.
  intros Hc Hm. unfold resolveContentNode. rewrite Hc.
  change (JS.split "." "9.9") with ["9"; "9"].
  cbn [resolveLoop]. unfold redirect. rewrite Hm, Hc. reflexivity.
Qed.

Lemma getContents_not_found (w : World) (tree : MimeNode) (sel : selector) :
  selectedNode tree sel = None -> getContents w tree sel = Normal (Text "").
Proof. intros H. unfold getContents. rewrite H. reflexivity. Qed.

(** The scenario on every tree of that shape. *)
Lemma getContents_nine_nine (w : World) (tree child : MimeNode) :
  childNodes tree = Some [child] -> message tree = None ->
  getContents w tree (Build_selector (Some "9.9") "content" None) = Normal (Text "").
Proof.
  intros Hc Hm. apply getContents_not_found.
  unfold selectedNode. simpl. apply (nine_nine_unresolved tree child Hc Hm).
Qed.

(** C5: a selector whose path does not resolve selects the empty string,
    and the buffered result is the empty buffer; no exception is thrown. *)
Theorem getContents_unresolved_path (w : World) (tree : MimeNode) (sel : selector) :
  JS.truthy (path sel) = true ->
  resolveContentNode tree (JS.orEmpty (path sel)) = None ->
  getContents w tree sel = Normal (Text "") /\
  bodyQuery w tree sel = Normal (CallbackData "") /\
  JS.byteLength "" = 0.
Proof.
  intros Hp Hr.
  assert (E : getContents w tree sel = Normal (Text "")).
  { apply getContents_not_found. unfold selectedNode. rewrite Hp. exact Hr. }
  split; [exact E|]. split; [|reflexivity].
  unfold bodyQuery. rewrite E. reflexivity.
Qed.

Lemma getContents_unresolved_path_witness :
  getContents Examples.world Scenario.oneChild (Build_selector (Some "9.9") "content" None)
  = Normal (Text "") /\
  bodyQuery Examples.world Scenario.oneChild (Build_selector (Some "9.9") "content" None)
  = Normal (CallbackData "") /\
  JS.byteLength "" = 0.
Proof.
  apply (getContents_unresolved_path Examples.world Scenario.oneChild
           (Build_selector (Some "9.9") "content" None)); vm_compute; reflexivity.
Defined.

(** C3 at the failing input: the selector "header" with a path to a part
    that carries a nested message returns the nested header unfiltered, so
    the marker line of the nested message is in the output. *)
Theorem nested_header_not_filtered (w : World) :
  getContents w Scenario.withNested (Build_selector (Some "1") "header" None)
  = Normal (Text (JS.join JS.CRLF ["X-Attachment-Stream-Url: <http://store/att1>"; "Subject: inner"]
                  +:+ JS.CRLF +:+ JS.CRLF)) /\
  isAttachmentMarker "X-Attachment-Stream-Url: <http://store/att1>" = true.
Proof. split; vm_compute; reflexivity. Qed.















(** ** [Number] on decimal digit strings *)

Lemma digit_cases (c : ascii) :
  isDecimalDigit c = true ->
  c = "0"%char \/ c = "1"%char \/ c = "2"%char \/ c = "3"%char \/ c = "4"%char \/
  c = "5"%char \/ c = "6"%char \/ c = "7"%char \/ c = "8"%char \/ c = "9"%char.
Proof.
  destruct c as [[] [] [] [] [] [] [] []]; intros H; try discriminate H; tauto.
Qed.

Ltac digit_case c H :=
  destruct (digit_cases c H) as [->|[->|[->|[->|[->|[->|[->|[->|[->| ->]]]]]]]]].

Lemma trimStart_allDigits (s : string) : allDigits s = true -> JS.trimStart s = s.
Proof.
  destruct s as [|c s]; simpl; [reflexivity|].
  intros [Hc _]%andb_prop. digit_case c Hc; reflexivity.
Qed.

Lemma trimEnd_allDigits (s : string) : allDigits s = true -> JS.trimEnd s = s.
Proof.
  induction s as [|c s IH]; simpl; [reflexivity|].
  intros [Hc Hs]%andb_prop. rewrite (IH Hs).
  destruct s; [|reflexivity].
  digit_case c Hc; reflexivity.
Qed.

Lemma digits_allDigits (s : string) (acc : N) (count : nat) :
  allDigits s = true ->
  exists v, JS.digits 10 s acc count = (v, (count + String.length s)%nat, EmptyString).
Proof.
  revert acc count. induction s as [|c s IH]; simpl; intros acc count H.
  - exists acc. rewrite Nat.add_0_r. reflexivity.
  - apply andb_prop in H as [Hc Hs].
    assert (Hd : exists d, JS.digitValue 10 c = Some d)
      by (digit_case c Hc; eexists; reflexivity).
    destruct Hd as [d ->].
    destruct (IH (acc * 10 + d)%N (S count) Hs) as [v Hv].
    exists v. rewrite Hv. f_equal. f_equal. lia.
Qed.

Lemma digits_string_of_uint (d : Decimal.uint) (acc : nat) (count : nat) :
  JS.digits 10 (NilEmpty.string_of_uint d) (N.of_nat acc) count
  = (N.of_nat (Nat.of_uint_acc d acc),
     (count + String.length (NilEmpty.string_of_uint d))%nat, EmptyString).
Proof.
  revert acc count.
  induction d as [|d IH|d IH|d IH|d IH|d IH|d IH|d IH|d IH|d IH|d IH]; intros acc count;
    [simpl; rewrite Nat.add_0_r; reflexivity|..];
    (cbn [NilEmpty.string_of_uint JS.digits Nat.of_uint_acc String.length];
     match goal with
     | |- context [JS.digitValue 10 ?c] =>
         let v := eval vm_compute in (JS.digitValue 10 c) in
         change (JS.digitValue 10 c) with v
     end;
     cbv iota beta;
     match goal with
     | |- JS.digits 10 _ ?a _ = (N.of_nat (Nat.of_uint_acc _ ?b), _, _) =>
         replace a with (N.of_nat b) by (rewrite Nat.tail_mul_spec; lia)
     end;
     rewrite IH; f_equal; f_equal; lia).
Qed.

Lemma allDigits_string_of_uint (d : Decimal.uint) :
  allDigits (NilEmpty.string_of_uint d) = true.
Proof. induction d; simpl; auto. Qed.

Lemma decimal_nonEmpty (i : nat) : nonEmpty (JS.decimal i) = true.
Proof.
  unfold JS.decimal.
  assert (H : Nat.to_uint i <> Decimal.Nil).
  { rewrite <- (DecimalNat.Unsigned.of_to i) at 1.
    rewrite DecimalNat.Unsigned.to_of. apply DecimalFacts.unorm_nonnil. }
  destruct (Nat.to_uint i); [congruence|reflexivity..].
Qed.

(** A digit string is read as the decimal literal it is. *)
Lemma Number_allDigits (s : string) :
  allDigits s = true -> nonEmpty s = true ->
  JS.Number s = JS.unsignedDecimal false s.
Proof.
  intros H Hne. unfold JS.Number, JS.trim.
  rewrite (trimStart_allDigits s H), (trimEnd_allDigits s H).
  destruct s as [|c s]; [discriminate Hne|].
  simpl in H. apply andb_prop in H as [Hc Hs].
  digit_case c Hc; try reflexivity.
  destruct s as [|c2 s]; [reflexivity|].
  simpl in Hs. apply andb_prop in Hs as [Hc2 _].
  digit_case c2 Hc2; reflexivity.
Qed.

Lemma unsignedDecimal_allDigits (s : string) :
  allDigits s = true -> nonEmpty s = true ->
  JS.unsignedDecimal false s = JS.Finite false (fst (fst (JS.digits 10 s 0%N 0%nat))) 0.
Proof.
  intros H Hne. unfold JS.unsignedDecimal.
  assert (E : String.eqb s "Infinity" = false).
  { destruct s as [|c s]; [reflexivity|].
    simpl in H. apply andb_prop in H as [Hc _].
    digit_case c Hc; reflexivity. }
  rewrite E.
  destruct (digits_allDigits s 0%N 0%nat H) as [v Hv]. rewrite Hv. simpl.
  destruct s as [|c s]; [discriminate Hne|]. reflexivity.
Qed.

Lemma Number_decimal (i : nat) :
  JS.Number (JS.decimal i) = JS.Finite false (N.of_nat i) 0.
Proof.
  rewrite Number_allDigits, unsignedDecimal_allDigits;
    try apply decimal_nonEmpty; try apply allDigits_string_of_uint.
  unfold JS.decimal.
  change 0%N with (N.of_nat 0). rewrite digits_string_of_uint. simpl.
  change (Nat.of_uint_acc (Nat.to_uint i) 0) with (Nat.of_uint (Nat.to_uint i)).
  rewrite DecimalNat.Unsigned.of_to. reflexivity.
Qed.

(** An integer from 1 to 2^32 - 1 is a double, and the index before it is
    the array index one below; 0 and integers from 2^32 on give none. *)
Lemma nearestDoubleInteger_integer (z : Z) :
  1 <= z < 2 ^ 32 -> JS.nearestDoubleInteger z 1 = Some z.
Proof.
  intros Hz. unfold JS.nearestDoubleInteger, JS.roundHalfEven. cbv zeta.
  destruct (Z.ltb_spec z 1) as [?|_]; [lia|].
  rewrite !Z.div_1_r.
  assert (He : 0 <= Z.log2 z < 32).
  { split; [apply Z.log2_nonneg|]. apply Z.log2_lt_pow2; lia. }
  set (k := 52 - Z.log2 z).
  assert (Hk : 0 < 2 ^ k) by (apply Z.pow_pos_nonneg; lia).
  rewrite Z.mod_1_r. change (2 * 0 <? 1) with true.
  cbv iota. rewrite Z.mod_mul by lia. change (0 =? 0) with true. cbv iota.
  rewrite Z.div_mul by lia. reflexivity.
Qed.

Lemma indexBefore_integer (n : nat) :
  JS.indexBefore (JS.Finite false (N.of_nat n) 0)
  = if (1 <=? Z.of_nat n) && (Z.of_nat n <? 2 ^ 32) then Some (n - 1)%nat else None.
Proof.
  unfold JS.indexBefore. change (0 <=? 0) with true. cbv iota.
  rewrite Z.pow_0_r, Z.mul_1_r, nat_N_Z.
  destruct (Z.leb_spec 1 (Z.of_nat n)) as [H1|H1];
    destruct (Z.ltb_spec (Z.of_nat n) (2 ^ 32)) as [H2|H2]; simpl andb; cbv iota.
  - destruct (Z.ltb_spec (2 * Z.of_nat n) 1) as [?|_]; [lia|].
    destruct (Z.leb_spec (2 ^ 32 * 1) (Z.of_nat n)) as [?|_]; [lia|].
    simpl orb. cbv iota.
    rewrite nearestDoubleInteger_integer by lia.
    destruct (Z.leb_spec 1 (Z.of_nat n)) as [_|?]; [|lia].
    destruct (Z.leb_spec (Z.of_nat n) (2 ^ 32 - 1)) as [_|?]; [|lia].
    simpl andb. cbv iota. f_equal. lia.
  - destruct (Z.leb_spec (2 ^ 32 * 1) (Z.of_nat n)) as [_|?]; [|lia].
    rewrite orb_true_r. reflexivity.
  - destruct (Z.ltb_spec (2 * Z.of_nat n) 1) as [_|?]; [|lia]. reflexivity.
  - lia.
Qed.

(** [a[Number(String(i)) - 1]] is [a[i - 1]] for the arrays that exist
    (fewer than 2^32 elements), and nothing for [i = 0]. *)
Lemma elementBefore_decimal {A : Type} (a : list A) (i : nat) :
  Z.of_nat (length a) < 2 ^ 32 ->
  elementBefore a (JS.decimal i) = if (1 <=? i)%nat then a !! (i - 1)%nat else None.
Proof.
  intros Hlen. unfold elementBefore. rewrite Number_decimal, indexBefore_integer.
  destruct (Nat.leb_spec 1 i) as [H1|H1].
  - destruct (Z.leb_spec 1 (Z.of_nat i)) as [_|?]; [|lia].
    destruct (Z.ltb_spec (Z.of_nat i) (2 ^ 32)) as [H2|H2]; simpl; [reflexivity|].
    symmetry. apply lookup_ge_None. lia.
  - destruct (Z.leb_spec 1 (Z.of_nat i)) as [?|_]; [lia|]. reflexivity.
Qed.

(** ** Section paths *)

Lemma resolveLoop_cons (seg : string) (rest : list string) (node : MimeNode) :
  nonEmpty seg = true ->
  resolveLoop (seg :: rest) node
  = match childNodes (redirect node) with
    | Some nodes =>
        match elementBefore nodes seg with
        | Some child => resolveLoop rest child
        | None => None
        end
    | None => None
    end.
Proof. destruct seg; [discriminate|reflexivity]. Qed.

Lemma resolveLoop_beforeEmpty (segments : list string) (node : MimeNode) :
  resolveLoop segments node = resolveLoop (beforeEmpty segments) node.
Proof.
  revert node. induction segments as [|seg rest IH]; intros node; [reflexivity|].
  cbn [beforeEmpty]. destruct (nonEmpty seg) eqn:E.
  - rewrite !resolveLoop_cons by exact E.
    destruct (childNodes (redirect node)) as [nodes|]; [|reflexivity].
    destruct (elementBefore nodes seg); [apply IH|reflexivity].
  - destruct seg; [reflexivity|discriminate].
Qed.

Lemma resolveLoop_app (pre rest : list string) (node : MimeNode) :
  Forall (fun seg => nonEmpty seg = true) pre ->
  resolveLoop (pre ++ rest) node
  = match resolveLoop pre node with
    | Some reached => resolveLoop rest reached
    | None => None
    end.
Proof.
  intros H. revert node. induction H as [|seg pre Hseg _ IH]; intros node.
  - reflexivity.
  - rewrite <- app_comm_cons, !resolveLoop_cons by exact Hseg.
    destruct (childNodes (redirect node)) as [nodes|]; [|reflexivity].
    destruct (elementBefore nodes seg); [apply IH|reflexivity].
Qed.

Lemma split_allDigits (s : string) : allDigits s = true -> JS.split "." s = [s].
Proof.
  induction s as [|c s IH]; simpl; [reflexivity|].
  intros [Hc Hs]%andb_prop. rewrite (IH Hs).
  digit_case c Hc; reflexivity.
Qed.

Lemma resolveContentNode_with_children (tree : MimeNode) (path : string) :
  (childNodes tree = None -> path <> "1") ->
  resolveContentNode tree path = resolveLoop (JS.split "." path) tree.
Proof.
  intros H. unfold resolveContentNode.
  destruct (childNodes tree); [reflexivity|].
  destruct (String.eqb_spec path "1") as [->|_]; [|reflexivity].
  exfalso. apply H; reflexivity.
Qed.

Lemma resolveContentNode_decimal (tree : MimeNode) (nodes : list MimeNode) (i : nat) :
  childNodes tree = Some nodes -> message tree = None ->
  Z.of_nat (length nodes) < 2 ^ 32 ->
  resolveContentNode tree (JS.decimal i)
  = if (1 <=? i)%nat then nodes !! (i - 1)%nat else None.
Proof.
  intros Hc Hm Hlen.
  rewrite resolveContentNode_with_children by (rewrite Hc; discriminate).
  rewrite split_allDigits by apply allDigits_string_of_uint.
  rewrite resolveLoop_cons by apply decimal_nonEmpty.
  unfold redirect. rewrite Hm, Hc, (elementBefore_decimal nodes i Hlen).
  destruct (1 <=? i)%nat; [|reflexivity].
  destruct (nodes !! (i - 1)%nat); reflexivity.
Qed.

(** C2 (amended): for a root without a nested message and with N children,
    the path "i" with 1 <= i <= N is the child i - 1, and "0" and "N + 1"
    are not found; a path that indexes into a node which, after the
    redirection into its nested message, has no childNodes is not found
    (the bare "1" on a root without childNodes apart); the empty path, and
    the bare "1" on a root without childNodes, are the root. *)
Theorem resolve_children (tree : MimeNode) (nodes : list MimeNode) :
  childNodes tree = Some nodes -> message tree = None ->
  Z.of_nat (length nodes) < 2 ^ 32 ->
  (forall i child, (1 <= i <= length nodes)%nat -> nodes !! (i - 1)%nat = Some child ->
     resolveContentNode tree (JS.decimal i) = Some child) /\
  (forall i, (1 <= i <= length nodes)%nat -> is_Some (nodes !! (i - 1)%nat)) /\
  resolveContentNode tree "0" = None /\
  resolveContentNode tree (JS.decimal (length nodes + 1)) = None /\
  (forall t path pre seg rest node,
     (childNodes t = None -> path <> "1") ->
     JS.split "." path = (pre ++ seg :: rest)%list ->
     Forall (fun s => nonEmpty s = true) pre -> nonEmpty seg = true ->
     resolveLoop pre t = Some node ->
     childNodes (redirect node) = None ->
     resolveContentNode t path = None) /\
  (forall t, resolveContentNode t "" = Some t /\
             (childNodes t = None -> resolveContentNode t "1" = Some t)).
Proof.
  intros Hc Hm Hlen. repeat split.
  - intros i child Hi Hchild.
    rewrite (resolveContentNode_decimal tree nodes i Hc Hm Hlen).
    destruct (Nat.leb_spec 1 i); [exact Hchild|lia].
  - intros i Hi. apply lookup_lt_is_Some. lia.
  - apply (resolveContentNode_decimal tree nodes 0 Hc Hm Hlen).
  - rewrite (resolveContentNode_decimal tree nodes _ Hc Hm Hlen).
    destruct (Nat.leb_spec 1 (length nodes + 1)); [|reflexivity].
    apply lookup_ge_None. lia.
  - intros t path pre seg rest node Hp Hs Hpre Hseg Hreach Hleaf.
    rewrite (resolveContentNode_with_children t path Hp), Hs.
    rewrite (resolveLoop_app pre (seg :: rest) t Hpre), Hreach.
    rewrite (resolveLoop_cons seg rest node Hseg), Hleaf. reflexivity.
  - unfold resolveContentNode. destruct (childNodes t); reflexivity.
  - intros Hn. unfold resolveContentNode. rewrite Hn. reflexivity.
Qed.

Lemma resolve_children_witness :
  resolveContentNode Scenario.oneChild "1"
  = Some (Examples.leaf ["Content-Type: text/plain"] {[ "content-type" := "text/plain" ]} "Hi") /\
  resolveContentNode Scenario.oneChild "0" = None /\
  resolveContentNode Scenario.oneChild "2" = None /\
  resolveContentNode Scenario.oneChild "1.1" = None.
Proof.
  destruct (resolve_children Scenario.oneChild
              [Examples.leaf ["Content-Type: text/plain"] {[ "content-type" := "text/plain" ]} "Hi"]
              eq_refl eq_refl ltac:(vm_compute; reflexivity))
    as (Hi & _ & H0 & HN & Hleaf & _).
  split; [exact (Hi 1%nat _ ltac:(simpl; lia) eq_refl)|].
  split; [exact H0|]. split; [exact HN|].
  apply (Hleaf Scenario.oneChild "1.1" ["1"] "1" []
           (Examples.leaf ["Content-Type: text/plain"] {[ "content-type" := "text/plain" ]} "Hi")).
  - discriminate.
  - reflexivity.
  - repeat constructor.
  - reflexivity.
  - vm_compute. reflexivity.
  - reflexivity.
Defined.

(** C2 as stated fails: the part "1" has no childNodes, and the path "1.1"
    through it is found, in the message nested in that part; and on a root
    that carries a nested message the paths "1" and "2" select the parts
    of that message, not the root's child or nothing. *)
Lemma resolve_through_nested_message :
  (exists part found,
     resolveContentNode Scenario.forwardedMultipart "1" = Some part /\
     childNodes part = None /\
     resolveContentNode Scenario.forwardedMultipart "1.1" = Some found) /\
  childNodes Scenario.rootWithMessage = Some [Examples.leaf ["Content-Type: text/plain"] ∅ "own"] /\
  resolveContentNode Scenario.rootWithMessage "1"
  = Some (Examples.leaf ["Content-Type: text/plain"] ∅ "one") /\
  resolveContentNode Scenario.rootWithMessage "2"
  = Some (Examples.leaf ["Content-Type: text/plain"] ∅ "two").
Proof.
  split; [do 2 eexists|]; repeat split; vm_compute; reflexivity.
Qed.

(** C10 (amended): a path with an empty segment is resolved by the
    segments before the first empty one alone: the result is the node they
    reach, or not found when one of them fails, and two such paths with the
    same segments before the empty one resolve alike.  ".2" is the root;
    "1..2" resolves as "1" does when the root has childNodes. *)
Theorem resolve_stops_at_empty_segment (tree : MimeNode) (path : string) :
  In "" (JS.split "." path) ->
  resolveContentNode tree path = resolveLoop (beforeEmpty (JS.split "." path)) tree /\
  (forall path', In "" (JS.split "." path') ->
     beforeEmpty (JS.split "." path') = beforeEmpty (JS.split "." path) ->
     resolveContentNode tree path' = resolveContentNode tree path) /\
  resolveContentNode tree ".2" = Some tree /\
  (childNodes tree <> None ->
     resolveContentNode tree "1..2" = resolveContentNode tree "1").
Proof.
  assert (G : forall p, In "" (JS.split "." p) ->
              resolveContentNode tree p = resolveLoop (beforeEmpty (JS.split "." p)) tree).
  { intros p Hp. rewrite resolveContentNode_with_children.
    - apply resolveLoop_beforeEmpty.
    - intros _ ->. simpl in Hp. destruct Hp as [Hp|[]]. discriminate Hp. }
  intros H. split; [exact (G path H)|]. split; [|split].
  - intros path' H' E. rewrite (G path' H'), (G path H), E. reflexivity.
  - unfold resolveContentNode. destruct (childNodes tree); reflexivity.
  - intros Hc. unfold resolveContentNode.
    destruct (childNodes tree) as [nodes|]; [|congruence].
    cbn [JS.split Ascii.eqb Bool.eqb]. simpl.
    destruct (elementBefore nodes "1"); reflexivity.
Qed.

Lemma resolve_stops_at_empty_segment_witness :
  resolveContentNode Scenario.oneChild "1..2"
  = resolveLoop ["1"] Scenario.oneChild /\
  resolveContentNode Scenario.oneChild "1." = resolveContentNode Scenario.oneChild "1..2" /\
  resolveContentNode Scenario.oneChild ".2" = Some Scenario.oneChild /\
  resolveContentNode Scenario.oneChild "1..2" = resolveContentNode Scenario.oneChild "1".
Proof.
  destruct (resolve_stops_at_empty_segment Scenario.oneChild "1..2"
              ltac:(simpl; tauto)) as (H1 & H2 & H3 & H4).
  split; [exact H1|]. split; [|split; [exact H3|]].
  - apply H2; [simpl; tauto|reflexivity].
  - apply H4. discriminate.
Defined.

(** C10 as stated fails: on a root without childNodes "1" is the root, but
    "1..2" is not found. *)
Lemma empty_segment_after_one_on_leaf :
  resolveContentNode Examples.simple "1" = Some Examples.simple /\
  resolveContentNode Examples.simple "1..2" = None.
Proof. split; vm_compute; reflexivity. Qed.

(** ** Externally stored content *)





(** ** Totality of getSize *)

Lemma GetSize_walk_eq (textOnly : bool) (node : MimeNode) (st : GetSize.state) :
  GetSize.walk textOnly node st
  = (let st := GetSize.enter textOnly node st in
     content <- GetSize.hasContent node ;;
     let st := if content : bool
               then let st := GetSize.append None true st in
                    GetSize.State (JS.add (GetSize.size st) (declaredSize node))
                                  (GetSize.first st) (GetSize.root st)
               else st in
     let children (st : GetSize.state) : completion GetSize.state :=
       match childNodes node with
       | Some nodes => GetSize.processChildNodes (GetSize.walk textOnly) node nodes st
       | None => Normal (GetSize.finalize node st)
       end in
     if JS.truthy (boundary node)
     then children (GetSize.append (Some ("--" +:+ JS.toString (boundary node))) false st)
     else
       url <- parsedHeaderGet node STREAM_URL ;;
       if JS.truthy url then Normal (GetSize.finalize node st) else children st).
Proof. destruct node; reflexivity. Qed.

Lemma append_isNum (data : option string) (force : bool) (st : GetSize.state) :
  isNum st -> isNum (GetSize.append data force st).
Proof.
  intros [z Hz]. unfold GetSize.append.
  destruct (JS.truthy data || force); [|exists z; exact Hz].
  simpl. rewrite Hz. simpl. eexists; reflexivity.
Qed.

Lemma enter_isNum (textOnly : bool) (node : MimeNode) (st : GetSize.state) :
  isNum st -> isNum (GetSize.enter textOnly node st).
Proof.
  intros H. unfold GetSize.enter.
  assert (H' : isNum (if negb textOnly || negb (GetSize.root st)
                      then GetSize.append (Some (headerBlock node)) false st else st)).
  { destruct (negb textOnly || negb (GetSize.root st)); [apply append_isNum|]; exact H. }
  destruct H' as [z Hz]. exists z. exact Hz.
Qed.

Lemma finalize_isNum (node : MimeNode) (st : GetSize.state) :
  isNum st -> isNum (GetSize.finalize node st).
Proof.
  intros H. unfold GetSize.finalize. apply append_isNum.
  destruct (JS.truthy (boundary node)); [apply append_isNum|]; exact H.
Qed.

Lemma processChildNodes_total (walk : MimeNode -> GetSize.state -> completion GetSize.state)
    (node : MimeNode) (rest : list MimeNode) :
  Forall (fun child => forall st, isNum st ->
            exists st', walk child st = Normal st' /\ isNum st') rest ->
  forall st, isNum st ->
    exists st', GetSize.processChildNodes walk node rest st = Normal st' /\ isNum st'.
Proof.
  induction 1 as [|child rest Hchild _ IH]; intros st Hst; simpl.
  - eexists. split; [reflexivity|]. apply finalize_isNum, Hst.
  - destruct (Hchild st Hst) as (st1 & -> & H1). simpl.
    apply IH. destruct rest; [exact H1|]. apply append_isNum, H1.
Qed.

Lemma walk_total (textOnly : bool) (node : MimeNode) :
  measurable node = true ->
  forall st, isNum st ->
    exists st', GetSize.walk textOnly node st = Normal st' /\ isNum st'.
Proof.
  induction node as [h ph b bd cs m sz IHcs _] using MimeNode_nested_ind.
  intros Hm st Hst. rewrite GetSize_walk_eq.
  cbn [measurable parsedHeader body size childNodes] in Hm.
  apply andb_prop in Hm as [Hm Hkids]. apply andb_prop in Hm as [Hph Hsize].
  destruct ph as [ph|]; [clear Hph|discriminate Hph].
  unfold hasStreamUrl in Hsize. cbn [parsedHeader] in Hsize.
  unfold GetSize.hasContent, parsedHeaderGet.
  cbn [body parsedHeader boundary childNodes bind].
  assert (Hkids' : forall st0, isNum st0 ->
            exists st', match cs with
                        | Some nodes =>
                            GetSize.processChildNodes (GetSize.walk textOnly)
                              (Build_MimeNode h (Some ph) b bd cs m sz) nodes st0
                        | None => Normal (GetSize.finalize (Build_MimeNode h (Some ph) b bd cs m sz) st0)
                        end = Normal st' /\ isNum st').
  { intros st0 H0. destruct cs as [nodes|].
    - apply processChildNodes_total; [|exact H0].
      simpl in IHcs. rewrite forallb_forall in Hkids.
      rewrite List.Forall_forall in IHcs |- *.
      intros child Hin. apply IHcs; [exact Hin|]. apply Hkids, Hin.
    - eexists. split; [reflexivity|]. apply finalize_isNum, H0. }
  pose proof (enter_isNum textOnly (Build_MimeNode h (Some ph) b bd cs m sz) st Hst) as He.
  set (st1 := GetSize.enter textOnly _ st) in *.
  assert (Hc : isNum (if JS.truthy b || JS.truthy (ph !! STREAM_URL)
                      then let st2 := GetSize.append None true st1 in
                           GetSize.State (JS.add (GetSize.size st2)
                                            (declaredSize (Build_MimeNode h (Some ph) b bd cs m sz)))
                                         (GetSize.first st2) (GetSize.root st2)
                      else st1)).
  { destruct (JS.truthy b || JS.truthy (ph !! STREAM_URL)); [|exact He].
    destruct sz as [n|]; [|discriminate Hsize].
    destruct (append_isNum None true st1 He) as [z Hz].
    cbv zeta. unfold declaredSize. cbn [size JS.toNumber GetSize.size].
    rewrite Hz. eexists; reflexivity. }
  destruct (JS.truthy b) eqn:Eb; cbn [bind orb] in *.
  - destruct (JS.truthy bd).
    + apply Hkids', append_isNum, Hc.
    + destruct (JS.truthy (ph !! STREAM_URL)).
      * eexists. split; [reflexivity|]. apply finalize_isNum, Hc.
      * apply Hkids', Hc.
  - destruct (JS.truthy bd).
    + apply Hkids', append_isNum, Hc.
    + destruct (JS.truthy (ph !! STREAM_URL)).
      * eexists. split; [reflexivity|]. apply finalize_isNum, Hc.
      * apply Hkids', Hc.
Qed.

(** C8 (amended): getSize returns an integer, without an exception, on
    every tree in which each node has a parsedHeader object and each node
    with content has a size; an absent header, body or childNodes counts
    as an empty one. *)
Theorem getSize_total (tree : MimeNode) (textOnly : bool) :
  measurable tree = true ->
  (exists z, getSize tree textOnly = Normal (JS.Num z)) /\
  (forall ph b bd cs m sz t,
     getSize (Build_MimeNode None ph b bd cs m sz) t
     = getSize (Build_MimeNode (Some []) ph b bd cs m sz) t) /\
  (forall h ph bd cs m sz t,
     getSize (Build_MimeNode h ph None bd cs m sz) t
     = getSize (Build_MimeNode h ph (Some "") bd cs m sz) t) /\
  (forall h ph b bd m sz t,
     getSize (Build_MimeNode h ph b bd None m sz) t
     = getSize (Build_MimeNode h ph b bd (Some []) m sz) t).
Proof.
  intros Hm. split; [|repeat split; intros; reflexivity].
  destruct (walk_total textOnly tree Hm GetSize.init) as (st' & Hw & z & Hz).
  { exists 0. reflexivity. }
  exists z. unfold getSize. rewrite Hw. simpl. rewrite Hz. reflexivity.
Qed.

Lemma getSize_total_witness :
  (exists z, getSize Scenario.bare false = Normal (JS.Num z)) /\
  getSize Scenario.bare false = Normal (JS.Num 6).
Proof.
  split; [|vm_compute; reflexivity].
  apply (getSize_total Scenario.bare false). vm_compute. reflexivity.
Defined.

(** C8 as stated fails: without parsedHeader getSize throws, and with a
    body but no size the result is not an integer. *)
Lemma getSize_absent_parsedHeader_or_size :
  getSize Scenario.noParsedHeader false = Throw TypeError /\
  getSize Scenario.noSize false = Normal JS.NaN.
Proof. split; vm_compute; reflexivity. Qed.

(** ** The estimate against the rebuilt stream *)

Lemma Rebuild_walk_eq (w : World) (textOnly : bool) (node : MimeNode) (st : Rebuild.state) :
  Rebuild.walk w textOnly node st
  = (let st := Rebuild.enter textOnly node st in
     let children (st : Rebuild.state) : Rebuild.outcome :=
       match childNodes node with
       | Some nodes => Rebuild.processChildNodes (Rebuild.walk w textOnly) node nodes st
       | None => Rebuild.Next (Rebuild.finalize node st)
       end in
     if JS.truthy (boundary node)
     then children (Rebuild.append (Some ("--" +:+ JS.toString (boundary node))) false st)
     else
       match parsedHeaderGet node STREAM_URL with
       | Throw e => Rebuild.Uncaught st e
       | Normal url =>
           if JS.truthy url then
             let streamUrl := stripAngleBrackets (JS.orEmpty url) in
             match parsedHeaderGet node STREAM_ENCODED with
             | Throw e => Rebuild.Uncaught st e
             | Normal encoded =>
                 let streamEncoded := isYes encoded in
                 let st := Rebuild.append None true st in
                 let st := Rebuild.write (Rebuild.piped w node streamUrl streamEncoded) st in
                 if failed (fetch w streamUrl)
                 then Rebuild.Error st
                 else Rebuild.Next (Rebuild.finalize node st)
             end
           else children st
       end).
Proof. destruct node; reflexivity. Qed.

Lemma length_append (a b : string) :
  String.length (a +:+ b) = (String.length a + String.length b)%nat.
Proof. induction a as [|c a IH]; simpl; [reflexivity|]. rewrite IH. reflexivity. Qed.

Lemma byteLength_append (a b : string) :
  JS.byteLength (a +:+ b) = JS.byteLength a + JS.byteLength b.
Proof. unfold JS.byteLength. rewrite length_append. lia. Qed.

Lemma totalBytes_snoc (l : list string) (chunk : string) :
  totalBytes (l ++ [chunk]) = totalBytes l + JS.byteLength chunk.
Proof. induction l as [|x l IH]; simpl; [lia|]. rewrite IH. lia. Qed.

Lemma truthy_false_orEmpty (v : option string) :
  JS.truthy v = false -> JS.orEmpty v = "".
Proof. destruct v as [[|c s]|]; [reflexivity|discriminate|reflexivity]. Qed.

Lemma take_all (n : nat) (s : string) : n = String.length s -> JS.take n s = s.
Proof.
  revert n. induction s as [|c s IH]; intros n ->; simpl; [reflexivity|].
  rewrite IH; reflexivity.
Qed.

Lemma append_agree (data : option string) (force : bool) (s : GetSize.state) (r : Rebuild.state) :
  agree s r -> agree (GetSize.append data force s) (Rebuild.append data force r).
Proof.
  destruct s as [sz f rt], r as [out f' rt' rem]. intros (Hs & Hf & Hr & Hrem).
  simpl in *. subst. unfold GetSize.append, Rebuild.append, agree, agreeWith. simpl.
  destruct (JS.truthy data || force); simpl; [|auto].
  rewrite totalBytes_snoc. auto.
Qed.

Lemma finalize_agree (node : MimeNode) (s : GetSize.state) (r : Rebuild.state) :
  agree s r -> agree (GetSize.finalize node s) (Rebuild.finalize node r).
Proof.
  intros H. unfold GetSize.finalize, Rebuild.finalize. apply append_agree.
  destruct (JS.truthy (boundary node)); [apply append_agree|]; exact H.
Qed.

Lemma enter_agree (textOnly : bool) (node : MimeNode) (s : GetSize.state) (r : Rebuild.state) :
  agree s r ->
  agreeWith (JS.orEmpty (body node)) (GetSize.enter textOnly node s) (Rebuild.enter textOnly node r).
Proof.
  intros H. unfold GetSize.enter, Rebuild.enter.
  destruct H as (Hs & Hf & Hr & Hrem) eqn:E. rewrite <- Hr.
  destruct (negb textOnly || negb (GetSize.root s)).
  - destruct (append_agree (Some (headerBlock node)) false s r) as (Hs' & Hf' & _ & _);
      [repeat split; assumption|].
    repeat split; assumption.
  - repeat split; assumption.
Qed.

Lemma processChildNodes_agree
    (gwalk : MimeNode -> GetSize.state -> completion GetSize.state)
    (rwalk : MimeNode -> Rebuild.state -> Rebuild.outcome)
    (node : MimeNode) (rest : list MimeNode) :
  Forall (fun child => forall s r, agree s r ->
            exists s' r', gwalk child s = Normal s' /\ rwalk child r = Rebuild.Next r' /\ agree s' r')
         rest ->
  forall s r, agree s r ->
    exists s' r',
      GetSize.processChildNodes gwalk node rest s = Normal s' /\
      Rebuild.processChildNodes rwalk node rest r = Rebuild.Next r' /\
      agree s' r'.
Proof.
  induction 1 as [|child rest Hchild _ IH]; intros s r Hsr; simpl.
  - do 2 eexists. split; [reflexivity|]. split; [reflexivity|].
    apply finalize_agree, Hsr.
  - destruct (Hchild s r Hsr) as (s1 & r1 & -> & -> & H1). simpl.
    apply IH. destruct rest; [exact H1|]. apply append_agree, H1.
Qed.

Lemma content_agree (s : GetSize.state) (r : Rebuild.state) (n : Z) (chunk : string) :
  agree s r -> JS.byteLength chunk = n ->
  agree (GetSize.State (JS.add (GetSize.size s) (JS.Num n)) (GetSize.first s) (GetSize.root s))
        (Rebuild.write chunk r).
Proof.
  intros (Hs & Hf & Hr & Hrem) Hn. unfold agree, agreeWith, Rebuild.write. simpl.
  rewrite Hs, totalBytes_snoc, Hn. auto.
Qed.

(** A body without boundary: the estimate counts it at once, the rebuilder
    writes it as the remainder when the node is finalized. *)
Lemma body_agree (node : MimeNode) (content : string) (s : GetSize.state) (r : Rebuild.state) :
  JS.truthy (boundary node) = false ->
  JS.truthy (Some content) = true ->
  agreeWith content s r ->
  agree (GetSize.finalize node
           (let s' := GetSize.append None true s in
            GetSize.State (JS.add (GetSize.size s') (JS.Num (JS.byteLength content)))
                          (GetSize.first s') (GetSize.root s')))
        (Rebuild.finalize node r).
Proof.
  intros Hbd Hc (Hs & Hf & Hr & Hrem).
  destruct s as [sz f rt], r as [out f' rt' rem]. simpl in *. subst.
  unfold GetSize.finalize, Rebuild.finalize, GetSize.append, Rebuild.append, agree, agreeWith.
  rewrite Hbd. simpl. rewrite Hc. simpl.
  rewrite totalBytes_snoc, !byteLength_append.
  change (JS.byteLength "") with 0.
  repeat split. f_equal. lia.
Qed.

Lemma walk_agree (w : World) (textOnly : bool) (node : MimeNode) :
  treeInvariant w node = true -> boundaryWithoutContent node = true ->
  forall s r, agree s r ->
    exists s' r',
      GetSize.walk textOnly node s = Normal s' /\
      Rebuild.walk w textOnly node r = Rebuild.Next r' /\
      agree s' r'.
Proof.
  induction node as [h ph b bd cs m sz IHcs _] using MimeNode_nested_ind.
  intros Hinv Hbwc s r Hsr.
  rewrite GetSize_walk_eq, Rebuild_walk_eq.
  cbn [treeInvariant childNodes] in Hinv. apply andb_prop in Hinv as [Hnode Hkids].
  cbn [boundaryWithoutContent childNodes boundary body] in Hbwc.
  apply andb_prop in Hbwc as [Hbd Hkids2].
  unfold nodeInvariant, hasStreamUrl, hasChildren, offered, fetchFails in Hnode.
  unfold hasStreamUrl in Hbd.
  cbn [parsedHeader body childNodes size] in Hnode, Hbd.
  destruct ph as [ph|]; [|discriminate Hnode].
  cbn [isSome andb] in Hnode.
  assert (Hloop : forall s0 r0, agree s0 r0 ->
            exists s' r',
              match cs with
              | Some nodes =>
                  GetSize.processChildNodes (GetSize.walk textOnly)
                    (Build_MimeNode h (Some ph) b bd cs m sz) nodes s0
              | None => Normal (GetSize.finalize (Build_MimeNode h (Some ph) b bd cs m sz) s0)
              end = Normal s' /\
              match cs with
              | Some nodes =>
                  Rebuild.processChildNodes (Rebuild.walk w textOnly)
                    (Build_MimeNode h (Some ph) b bd cs m sz) nodes r0
              | None => Rebuild.Next (Rebuild.finalize (Build_MimeNode h (Some ph) b bd cs m sz) r0)
              end = Rebuild.Next r' /\
              agree s' r').
  { intros s0 r0 H0. destruct cs as [nodes|].
    - apply processChildNodes_agree; [|exact H0].
      simpl in IHcs. rewrite forallb_forall in Hkids, Hkids2.
      rewrite List.Forall_forall in IHcs |- *.
      intros child Hin. apply IHcs; [exact Hin|apply Hkids, Hin|apply Hkids2, Hin].
    - do 2 eexists. split; [reflexivity|]. split; [reflexivity|].
      apply finalize_agree, H0. }
  pose proof (enter_agree textOnly (Build_MimeNode h (Some ph) b bd cs m sz) s r Hsr) as He.
  set (s1 := GetSize.enter textOnly _ s) in *.
  set (r1 := Rebuild.enter textOnly _ r) in *.
  unfold GetSize.hasContent, parsedHeaderGet.
  cbn [body parsedHeader boundary childNodes bind] in *.
  apply andb_prop in Hnode as [Hnode Hurl]. apply andb_prop in Hnode as [Hnode Hbody].
  apply andb_prop in Hnode as [Hnode Hexcl]. apply andb_prop in Hnode as [Hcb Hcu].
  destruct (JS.truthy bd) eqn:Ebd.
  - (* a boundary: no content of its own *)
    apply andb_prop in Hbd as [Hb Hu]. apply negb_true_iff in Hb, Hu.
    rewrite Hb, Hu. rewrite (truthy_false_orEmpty b Hb) in He.
    cbn [bind]. apply Hloop, append_agree, He.
  - destruct (JS.truthy (ph !! STREAM_URL)) eqn:Eu.
    + (* externally stored content *)
      assert (Hb : JS.truthy b = false)
        by (destruct (JS.truthy b); [discriminate Hexcl|reflexivity]).
      rewrite Hb. rewrite (truthy_false_orEmpty b Hb) in He. cbn [bind].
      apply andb_prop in Hurl as [Hsz Hok].
      apply bool_decide_eq_true in Hsz. apply negb_true_iff in Hok.
      rewrite Hok.
      do 2 eexists. split; [reflexivity|]. split; [reflexivity|].
      apply finalize_agree. cbv zeta.
      unfold declaredSize, Rebuild.piped. cbn [size]. rewrite Hsz. cbn [JS.toNumber LengthLimiter].
      apply content_agree; [apply append_agree, He|].
      rewrite take_all; [reflexivity|]. unfold JS.byteLength. lia.
    + destruct (JS.truthy b) eqn:Eb; cbn [bind].
      * (* a body *)
        apply bool_decide_eq_true in Hbody.
        assert (Hleafy : exists s' r',
                  Normal (GetSize.finalize (Build_MimeNode h (Some ph) b bd cs m sz)
                     (let s' := GetSize.append None true s1 in
                      GetSize.State (JS.add (GetSize.size s') (JS.Num (JS.byteLength (JS.orEmpty b))))
                        (GetSize.first s') (GetSize.root s'))) = Normal s' /\
                  Rebuild.Next (Rebuild.finalize (Build_MimeNode h (Some ph) b bd cs m sz) r1)
                  = Rebuild.Next r' /\ agree s' r').
        { do 2 eexists. split; [reflexivity|]. split; [reflexivity|].
          apply body_agree; [exact Ebd| |exact He].
          destruct b as [[|c b]|]; try discriminate Eb. reflexivity. }
        unfold declaredSize. cbn [size]. rewrite Hbody. cbn [JS.toNumber].
        destruct cs as [[|child nodes]|]; [exact Hleafy|discriminate Hcb|exact Hleafy].
      * rewrite (truthy_false_orEmpty b Eb) in He. apply Hloop, He.
Qed.

(** Where the estimate is exact: on every tree that satisfies the
    invariants of the data model and in which no node with a boundary has
    content of its own, the rebuilt stream ends normally and getSize is
    the number of bytes written to it. *)
Lemma getSize_matches_rebuild (w : World) (tree : MimeNode) (textOnly : bool) :
  treeInvariant w tree = true -> boundaryWithoutContent tree = true ->
  status (runWalk w tree textOnly) = Ended /\
  getSize tree textOnly = Normal (JS.Num (totalBytes (chunks (runWalk w tree textOnly)))) /\
  rebuild w tree textOnly
  = Normal (Build_rebuilt (runWalk w tree textOnly)
              (JS.Num (totalBytes (chunks (runWalk w tree textOnly))))).
Proof.
  intros Hinv Hb.
  destruct (walk_agree w textOnly tree Hinv Hb GetSize.init Rebuild.init)
    as (s' & r' & Hg & Hr & Hs & _).
  { repeat split. }
  assert (E : getSize tree textOnly
              = Normal (JS.Num (totalBytes (chunks (runWalk w tree textOnly))))).
  { unfold getSize, runWalk. rewrite Hg, Hr. simpl. rewrite Hs. reflexivity. }
  split; [unfold runWalk; rewrite Hr; reflexivity|].
  split; [exact E|]. unfold rebuild. rewrite E. reflexivity.
Qed.

Lemma getSize_matches_rebuild_examples :
  treeInvariant Examples.world Scenario.forwardedMultipart = true /\
  boundaryWithoutContent Scenario.forwardedMultipart = true /\
  getSize Scenario.forwardedMultipart false = Normal (JS.Num 94) /\
  treeInvariant Examples.world Scenario.exactAttachment = true /\
  getSize Scenario.exactAttachment true
  = Normal (JS.Num (totalBytes (chunks (runWalk Examples.world Scenario.exactAttachment true)))).
Proof.
  split; [vm_compute; reflexivity|]. split; [vm_compute; reflexivity|].
  split; [vm_compute; reflexivity|]. split; [vm_compute; reflexivity|].
  apply (getSize_matches_rebuild Examples.world Scenario.exactAttachment true);
    vm_compute; reflexivity.
Qed.

(** C1 at the failing input: a node declared multipart with a body and no
    parts satisfies the invariants of the data model, its stream ends
    normally with 65 bytes, and getSize returns 67: the estimate counts a
    line break between the body and the boundary that the rebuilder does
    not write. *)
Theorem estimate_exceeds_rebuilt_stream (textOnly : bool) :
  treeInvariant Examples.world Scenario.declaredMultipart = true /\
  status (runWalk Examples.world Scenario.declaredMultipart false) = Ended /\
  chunks (runWalk Examples.world Scenario.declaredMultipart false)
  = ["Content-Type: multipart/mixed; boundary=b" +:+ JS.CRLF;
     JS.CRLF +:+ "preamble--b";
     JS.CRLF +:+ "--b--" +:+ JS.CRLF] /\
  totalBytes (chunks (runWalk Examples.world Scenario.declaredMultipart false)) = 65 /\
  getSize Scenario.declaredMultipart false = Normal (JS.Num 67) /\
  getSize Scenario.declaredMultipart textOnly
  = Normal (JS.Num (totalBytes (chunks (runWalk Examples.world Scenario.declaredMultipart textOnly)) + 2)).
Proof. destruct textOnly; repeat split; vm_compute; reflexivity. Qed.

Lemma filter_sublist_of {A : Type} (f : A -> bool) (l : list A) :
  sublist (List.filter f l) l.
Proof.
  induction l as [|x l IH]; simpl; [constructor|].
  destruct (f x); constructor; exact IH.
Qed.

Lemma Forall_sublist_of {A : Type} (P : A -> Prop) (l1 l2 : list A) :
  sublist l1 l2 -> Forall P l2 -> Forall P l1.
Proof.
  induction 1 as [|x l1 l2 _ IH|x l1 l2 _ IH]; intros H.
  - constructor.
  - inversion H; subst. constructor; [assumption|apply IH; assumption].
  - inversion H; subst. apply IH; assumption.
Qed.

(** X10: the selectors that read the header of the selected node itself
    ("header" without a path, "header.fields", "header.fields.not" and
    "mime") return entries of that node's header array, in their order
    and joined by CRLF, with the blank line after them; every entry
    returned is one that the filter keeps, and none is a marker line. *)
Lemma selected_header_filtered (w : World) (tree node : MimeNode) (sel : selector) :
  selectedNode tree sel = Some node ->
  (type sel = "header" /\ JS.truthy (path sel) = false) \/ type sel = "header.fields" \/
  type sel = "header.fields.not" \/ type sel = "mime" ->
  exists lines,
    getContents w tree sel = Normal (Text (JS.join JS.CRLF lines +:+ JS.CRLF +:+ JS.CRLF)) /\
    sublist lines (filterHeaders (header node)) /\
    sublist lines (default [] (header node)) /\
    Forall (fun line => isAttachmentMarker line = false) lines.
Proof.
  intros Hn Ht.
  assert (Hkept : forall lines, sublist lines (filterHeaders (header node)) ->
            sublist lines (filterHeaders (header node)) /\
            sublist lines (default [] (header node)) /\
            Forall (fun line => isAttachmentMarker line = false) lines).
  { intros lines Hsub. split; [exact Hsub|]. split.
    - transitivity (filterHeaders (header node)); [exact Hsub|apply filter_sublist_of].
    - apply (Forall_sublist_of _ _ _ Hsub), filterHeaders_no_marker. }
  unfold getContents. rewrite Hn.
  destruct Ht as [[-> Hp] | [-> | [-> | ->]]]; cbn [String.eqb Ascii.eqb Bool.eqb orb].
  - rewrite Hp. cbn [negb]. eexists. split; [reflexivity|apply Hkept; reflexivity].
  - destruct (noHeaders sel).
    + exists []. split; [reflexivity|apply Hkept, sublist_nil_l].
    + eexists. split; [reflexivity|apply Hkept, filter_sublist_of].
  - destruct (noHeaders sel).
    + eexists. split; [reflexivity|apply Hkept; reflexivity].
    + eexists. split; [reflexivity|apply Hkept, filter_sublist_of].
  - eexists. split; [reflexivity|apply Hkept; reflexivity].
Qed.

(** ** The whole message against its header and its text *)

Lemma walk_afterEnter (w : World) (textOnly : bool) (node : MimeNode) (st : Rebuild.state) :
  Rebuild.walk w textOnly node st = afterEnter w textOnly node (Rebuild.enter textOnly node st).
Proof. rewrite Rebuild_walk_eq. reflexivity. Qed.

Lemma append_shifted (pre : list string) (data : option string) (force : bool)
    (a b : Rebuild.state) :
  shifted pre a b -> shifted pre (Rebuild.append data force a) (Rebuild.append data force b).
Proof.
  destruct a as [ra fa ta ma], b as [rb fb tb mb].
  intros (Hm & Hta & Htb & Hfa & Hfb & Hres). simpl in *. subst.
  unfold Rebuild.append, Rebuild.write, shifted.
  cbn [Rebuild.remainder Rebuild.res Rebuild.first Rebuild.root].
  destruct (JS.truthy (Some mb) || JS.truthy data || force);
    cbn [Rebuild.remainder Rebuild.res Rebuild.first Rebuild.root].
  - repeat split; try reflexivity.
    + destruct rb; reflexivity.
    + destruct rb as [|c l]; simpl.
      * rewrite app_nil_r. reflexivity.
      * rewrite <- app_assoc. reflexivity.
  - repeat split; reflexivity.
Qed.

Lemma append_written (data : option string) (b : Rebuild.state) :
  nothingWritten (Rebuild.res (Rebuild.append data true b)) = false.
Proof.
  unfold Rebuild.append, Rebuild.write. rewrite orb_true_r. simpl.
  destruct (Rebuild.res b); reflexivity.
Qed.

Lemma write_shifted (pre : list string) (chunk : string) (a b : Rebuild.state) :
  shifted pre a b -> nothingWritten (Rebuild.res b) = false ->
  shifted pre (Rebuild.write chunk a) (Rebuild.write chunk b).
Proof.
  destruct a as [ra fa ta ma], b as [rb fb tb mb].
  intros (Hm & Hta & Htb & Hfa & Hfb & Hres) Hw. simpl in *. subst.
  unfold Rebuild.write, shifted. simpl.
  destruct rb as [|c l]; [discriminate Hw|]. simpl.
  repeat split; try reflexivity. rewrite <- app_assoc. reflexivity.
Qed.

Lemma finalize_shifted (pre : list string) (node : MimeNode) (a b : Rebuild.state) :
  shifted pre a b -> shifted pre (Rebuild.finalize node a) (Rebuild.finalize node b).
Proof.
  intros H. unfold Rebuild.finalize. apply append_shifted.
  destruct (JS.truthy (boundary node)); [apply append_shifted|]; exact H.
Qed.

Lemma enter_shifted (pre : list string) (tA tB : bool) (node : MimeNode) (a b : Rebuild.state) :
  shifted pre a b ->
  shifted pre (Rebuild.enter tA node a) (Rebuild.enter tB node b).
Proof.
  intros H. pose proof H as (_ & Hta & Htb & _).
  unfold Rebuild.enter. rewrite Hta, Htb, !orb_true_r.
  destruct (append_shifted pre (Some (headerBlock node)) false a b H)
    as (_ & _ & _ & Hfa & Hfb & Hres).
  repeat split; assumption.
Qed.

Lemma processChildNodes_shifted (pre : list string)
    (walkA walkB : MimeNode -> Rebuild.state -> Rebuild.outcome)
    (node : MimeNode) (rest : list MimeNode) :
  Forall (fun child => forall a b, shifted pre a b ->
            shiftedOutcome pre (walkA child a) (walkB child b)) rest ->
  forall a b, shifted pre a b ->
    shiftedOutcome pre (Rebuild.processChildNodes walkA node rest a)
                       (Rebuild.processChildNodes walkB node rest b).
Proof.
  induction 1 as [|child rest Hchild _ IH]; intros a b Hab; simpl.
  - apply finalize_shifted, Hab.
  - specialize (Hchild a b Hab).
    destruct (walkA child a) as [a1|a1|a1 ea], (walkB child b) as [b1|b1|b1 eb];
      simpl in *; try contradiction; try exact Hchild.
    apply IH. destruct rest; [exact Hchild|]. apply append_shifted, Hchild.
Qed.

Lemma afterEnter_shifted (w : World) (pre : list string) (node : MimeNode) :
  forall tA tB a b, shifted pre a b ->
    shiftedOutcome pre (afterEnter w tA node a) (afterEnter w tB node b).
Proof.
  induction node as [h ph b0 bd cs m sz IHcs _] using MimeNode_nested_ind.
  intros tA tB a b Hab. unfold afterEnter.
  cbn [boundary childNodes].
  assert (Hloop : forall a0 b0', shifted pre a0 b0' ->
            shiftedOutcome pre
              match cs with
              | Some nodes =>
                  Rebuild.processChildNodes (Rebuild.walk w tA)
                    (Build_MimeNode h ph b0 bd cs m sz) nodes a0
              | None => Rebuild.Next (Rebuild.finalize (Build_MimeNode h ph b0 bd cs m sz) a0)
              end
              match cs with
              | Some nodes =>
                  Rebuild.processChildNodes (Rebuild.walk w tB)
                    (Build_MimeNode h ph b0 bd cs m sz) nodes b0'
              | None => Rebuild.Next (Rebuild.finalize (Build_MimeNode h ph b0 bd cs m sz) b0')
              end).
  { intros a0 b0' H0. destruct cs as [nodes|].
    - apply processChildNodes_shifted; [|exact H0].
      simpl in IHcs. rewrite List.Forall_forall in IHcs |- *.
      intros child Hin a1 b1 H1. rewrite !walk_afterEnter.
      apply IHcs; [exact Hin|]. apply enter_shifted, H1.
    - simpl. apply finalize_shifted, H0. }
  destruct (JS.truthy bd).
  - apply Hloop, append_shifted, Hab.
  - unfold parsedHeaderGet. cbn [parsedHeader].
    destruct ph as [ph|]; [|exact Hab].
    destruct (JS.truthy (ph !! STREAM_URL)); [|apply Hloop, Hab].
    cbv zeta.
    assert (Hw : shifted pre
              (Rebuild.write (Rebuild.piped w (Build_MimeNode h (Some ph) b0 bd cs m sz)
                                (stripAngleBrackets (JS.orEmpty (ph !! STREAM_URL)))
                                (isYes (ph !! STREAM_ENCODED)))
                 (Rebuild.append None true a))
              (Rebuild.write (Rebuild.piped w (Build_MimeNode h (Some ph) b0 bd cs m sz)
                                (stripAngleBrackets (JS.orEmpty (ph !! STREAM_URL)))
                                (isYes (ph !! STREAM_ENCODED)))
                 (Rebuild.append None true b))).
    { apply write_shifted; [apply append_shifted, Hab|apply append_written]. }
    destruct (failed (fetch w (stripAngleBrackets (JS.orEmpty (ph !! STREAM_URL))))).
    + exact Hw.
    + apply finalize_shifted, Hw.
Qed.

Lemma headerBlock_truthy (node : MimeNode) : JS.truthy (Some (headerBlock node)) = true.
Proof.
  unfold headerBlock. destruct (JS.join JS.CRLF (filterHeaders (header node))); reflexivity.
Qed.

Lemma append_empty_r (s : string) : s +:+ "" = s.
Proof.
  induction s as [|c s IH]; [reflexivity|].
  change (String c (s +:+ "") = String c s). rewrite IH. reflexivity.
Qed.

Lemma append_assoc (a b c : string) : (a +:+ b) +:+ c = a +:+ (b +:+ c).
Proof.
  induction a as [|x a IH]; [reflexivity|].
  change (String x ((a +:+ b) +:+ c) = String x (a +:+ (b +:+ c))). rewrite IH. reflexivity.
Qed.

Lemma concat_cons (chunk : string) (l : list string) :
  String.concat "" (chunk :: l) = chunk +:+ String.concat "" l.
Proof. destruct l; cbn [String.concat]; [rewrite append_empty_r|]; reflexivity. Qed.

(** X3: the stream of the whole message is the header block followed by
    the stream of its text, with one separator in between when the text
    walk writes anything at all; both streams end in the same way.  When
    there is text, the whole message is what the selector "header" returns
    followed by the text. *)
Theorem content_is_header_and_text (w : World) (tree : MimeNode) :
  status (runWalk w tree false) = status (runWalk w tree true) /\
  chunks (runWalk w tree false)
  = headerBlock tree :: separated (chunks (runWalk w tree true)) /\
  materialize (runWalk w tree false)
  = headerBlock tree +:+ (if nothingWritten (chunks (runWalk w tree true)) then ""
                          else JS.CRLF +:+ materialize (runWalk w tree true)) /\
  (nothingWritten (chunks (runWalk w tree true)) = false ->
   exists headerText,
     getContents w tree (Build_selector None "header" None) = Normal (Text headerText) /\
     materialize (runWalk w tree false) = headerText +:+ materialize (runWalk w tree true)).
Proof.
  assert (H : shiftedOutcome [headerBlock tree]
                (Rebuild.walk w false tree Rebuild.init) (Rebuild.walk w true tree Rebuild.init)).
  { rewrite !walk_afterEnter. apply afterEnter_shifted.
    unfold Rebuild.enter, Rebuild.append, Rebuild.write, Rebuild.init.
    cbn [negb orb Rebuild.root Rebuild.remainder Rebuild.first Rebuild.res].
    rewrite headerBlock_truthy, orb_true_r. repeat split. }
  assert (G : status (runWalk w tree false) = status (runWalk w tree true) /\
              chunks (runWalk w tree false)
              = headerBlock tree :: separated (chunks (runWalk w tree true))).
  { unfold runWalk.
    destruct (Rebuild.walk w false tree Rebuild.init) as [a|a|a ea],
             (Rebuild.walk w true tree Rebuild.init) as [b|b|b eb];
      simpl in H; try contradiction;
      destruct H as (_ & _ & _ & _ & _ & Hres); simpl; rewrite Hres; split; reflexivity. }
  destruct G as [Gs Gc].
  assert (Gm : materialize (runWalk w tree false)
               = headerBlock tree +:+ (if nothingWritten (chunks (runWalk w tree true)) then ""
                                       else JS.CRLF +:+ materialize (runWalk w tree true))).
  { unfold materialize. rewrite Gc, concat_cons.
    destruct (chunks (runWalk w tree true)) as [|c l]; [reflexivity|].
    simpl separated. cbn [nothingWritten]. rewrite !concat_cons, append_assoc. reflexivity. }
  split; [exact Gs|]. split; [exact Gc|]. split; [exact Gm|].
  intros Hw. exists (headerBlock tree +:+ JS.CRLF). split.
  - unfold getContents, selectedNode. simpl. unfold headerBlock.
    rewrite append_assoc. reflexivity.
  - rewrite Gm, Hw, append_assoc. reflexivity.
Qed.

Lemma content_is_header_and_text_witness :
  nothingWritten (chunks (runWalk Examples.world Examples.simple true)) = false /\
  exists headerText,
    getContents Examples.world Examples.simple (Build_selector None "header" None)
    = Normal (Text headerText) /\
    materialize (runWalk Examples.world Examples.simple false)
    = headerText +:+ materialize (runWalk Examples.world Examples.simple true).
Proof.
  split; [reflexivity|].
  destruct (content_is_header_and_text Examples.world Examples.simple) as (_ & _ & _ & H).
  apply H. reflexivity.
Defined.

(** ** The whole estimate against the estimate of the text *)
























(** ** The declared length of a rebuilt stream *)




(** ** Trees without external content *)

Lemma processChildNodes_ext (walkA walkB : MimeNode -> Rebuild.state -> Rebuild.outcome)
    (node : MimeNode) (rest : list MimeNode) :
  Forall (fun child => forall st, walkA child st = walkB child st /\
                                  forall st', walkA child st <> Rebuild.Error st') rest ->
  forall st, Rebuild.processChildNodes walkA node rest st
             = Rebuild.processChildNodes walkB node rest st /\
             forall st', Rebuild.processChildNodes walkA node rest st <> Rebuild.Error st'.
Proof.
  induction 1 as [|child rest Hchild _ IH]; intros st; simpl.
  - split; [reflexivity|discriminate].
  - destruct (Hchild st) as [He Hn]. rewrite <- He.
    destruct (walkA child st) as [s1|s1|s1 e]; simpl.
    + apply IH.
    + exfalso. exact (Hn s1 eq_refl).
    + split; [reflexivity|discriminate].
Qed.

Lemma walk_withoutMarker (w w' : World) (textOnly : bool) (node : MimeNode) :
  withoutMarker node = true ->
  forall st, Rebuild.walk w textOnly node st = Rebuild.walk w' textOnly node st /\
             forall st', Rebuild.walk w textOnly node st <> Rebuild.Error st'.
Proof.
  induction node as [h ph b0 bd cs m sz IHcs _] using MimeNode_nested_ind.
  intros Hm st. rewrite !Rebuild_walk_eq.
  cbn [withoutMarker childNodes] in Hm. apply andb_prop in Hm as [Hu Hkids].
  unfold hasStreamUrl in Hu. unfold parsedHeaderGet.
  cbn [parsedHeader boundary childNodes] in *. cbv zeta.
  assert (Hloop : forall st0,
            match cs with
            | Some nodes =>
                Rebuild.processChildNodes (Rebuild.walk w textOnly)
                  (Build_MimeNode h ph b0 bd cs m sz) nodes st0
            | None => Rebuild.Next (Rebuild.finalize (Build_MimeNode h ph b0 bd cs m sz) st0)
            end
            = match cs with
              | Some nodes =>
                  Rebuild.processChildNodes (Rebuild.walk w' textOnly)
                    (Build_MimeNode h ph b0 bd cs m sz) nodes st0
              | None => Rebuild.Next (Rebuild.finalize (Build_MimeNode h ph b0 bd cs m sz) st0)
              end /\
            forall st',
              match cs with
              | Some nodes =>
                  Rebuild.processChildNodes (Rebuild.walk w textOnly)
                    (Build_MimeNode h ph b0 bd cs m sz) nodes st0
              | None => Rebuild.Next (Rebuild.finalize (Build_MimeNode h ph b0 bd cs m sz) st0)
              end <> Rebuild.Error st').
  { intros st0. destruct cs as [nodes|]; [|split; [reflexivity|discriminate]].
    apply processChildNodes_ext.
    simpl in IHcs. rewrite forallb_forall in Hkids.
    rewrite List.Forall_forall in IHcs |- *.
    intros child Hin. apply IHcs; [exact Hin|]. apply Hkids, Hin. }
  destruct (JS.truthy bd); [apply Hloop|].
  destruct ph as [ph|]; [|split; [reflexivity|discriminate]].
  apply negb_true_iff in Hu. rewrite Hu. apply Hloop.
Qed.

(** X5: a tree without the marker of external content is rebuilt without
    the remote store: the stream is the same in every world, and it never
    fails. *)
Theorem rebuild_without_marker (w w' : World) (tree : MimeNode) (textOnly : bool) :
  withoutMarker tree = true ->
  runWalk w tree textOnly = runWalk w' tree textOnly /\
  rebuild w tree textOnly = rebuild w' tree textOnly /\
  status (runWalk w tree textOnly) <> Failed.
Proof.
  intros Hm.
  destruct (walk_withoutMarker w w' textOnly tree Hm Rebuild.init) as [He Hn].
  assert (E : runWalk w tree textOnly = runWalk w' tree textOnly)
    by (unfold runWalk; rewrite He; reflexivity).
  split; [exact E|]. split; [unfold rebuild; rewrite E; reflexivity|].
  unfold runWalk. destruct (Rebuild.walk w textOnly tree Rebuild.init) as [s|s|s e];
    simpl; [discriminate| |discriminate].
  exfalso. exact (Hn s eq_refl).
Qed.

Lemma rebuild_without_marker_witness :
  runWalk Examples.world Scenario.forwardedMultipart false
  = runWalk (Build_World (fun _ => Response "" true) (fun s => s)) Scenario.forwardedMultipart false /\
  status (runWalk Examples.world Scenario.forwardedMultipart false) <> Failed.
Proof.
  destruct (rebuild_without_marker Examples.world
              (Build_World (fun _ => Response "" true) (fun s => s))
              Scenario.forwardedMultipart false ltac:(vm_compute; reflexivity))
    as (H1 & _ & H3).
  split; [exact H1|exact H3].
Defined.

(** ** The closing delimiter *)

Lemma Rebuild_append_state (data : option string) (force : bool) (st : Rebuild.state) :
  Rebuild.remainder (Rebuild.append data force st) = "" /\
  (Rebuild.first st = false -> Rebuild.first (Rebuild.append data force st) = false).
Proof.
  unfold Rebuild.append.
  destruct (JS.truthy (Some (Rebuild.remainder st)) || JS.truthy data || force);
    simpl; auto.
Qed.

Lemma Rebuild_finalize_state (node : MimeNode) (st : Rebuild.state) :
  Rebuild.remainder (Rebuild.finalize node st) = "" /\
  (Rebuild.first st = false -> Rebuild.first (Rebuild.finalize node st) = false).
Proof.
  unfold Rebuild.finalize. split; [apply Rebuild_append_state|].
  intros Hf. apply Rebuild_append_state.
  destruct (JS.truthy (boundary node)); [apply Rebuild_append_state|]; exact Hf.
Qed.

Lemma processChildNodes_next
    (walk : MimeNode -> Rebuild.state -> Rebuild.outcome)
    (node : MimeNode) (rest : list MimeNode) :
  Forall (fun child => forall st st', walk child st = Rebuild.Next st' ->
            Rebuild.remainder st' = "" /\
            (Rebuild.first st = false -> Rebuild.first st' = false)) rest ->
  forall st st', Rebuild.remainder st = "" -> Rebuild.first st = false ->
    Rebuild.processChildNodes walk node rest st = Rebuild.Next st' ->
    exists st0, st' = Rebuild.finalize node st0 /\
                Rebuild.remainder st0 = "" /\ Rebuild.first st0 = false.
Proof.
  induction 1 as [|child rest Hchild _ IH]; intros st st' Hr Hf Hs; simpl in Hs.
  - injection Hs as <-. exists st. auto.
  - destruct (walk child st) as [s1|s1|s1 e] eqn:E; simpl in Hs; try discriminate Hs.
    destruct (Hchild st s1 E) as [Hr1 Hf1]. specialize (Hf1 Hf).
    refine (IH _ st' _ _ Hs).
    + destruct rest; [exact Hr1|]. apply Rebuild_append_state.
    + destruct rest; [exact Hf1|]. apply Rebuild_append_state, Hf1.
Qed.

Lemma processChildNodes_next_state
    (walk : MimeNode -> Rebuild.state -> Rebuild.outcome)
    (node : MimeNode) (rest : list MimeNode) :
  Forall (fun child => forall st st', walk child st = Rebuild.Next st' ->
            Rebuild.remainder st' = "" /\
            (Rebuild.first st = false -> Rebuild.first st' = false)) rest ->
  forall st st', Rebuild.processChildNodes walk node rest st = Rebuild.Next st' ->
    Rebuild.remainder st' = "" /\
    (Rebuild.first st = false -> Rebuild.first st' = false).
Proof.
  induction 1 as [|child rest Hchild _ IH]; intros st st' Hs; simpl in Hs.
  - injection Hs as <-. apply Rebuild_finalize_state.
  - destruct (walk child st) as [s1|s1|s1 e] eqn:E; simpl in Hs; try discriminate Hs.
    destruct (Hchild st s1 E) as [Hr1 Hf1].
    destruct (IH _ st' Hs) as [Hr2 Hf2].
    split; [exact Hr2|]. intros Hf. apply Hf2.
    destruct rest; [exact (Hf1 Hf)|]. apply Rebuild_append_state, Hf1, Hf.
Qed.

Lemma walk_next_state (w : World) (textOnly : bool) (node : MimeNode) :
  forall st st', Rebuild.walk w textOnly node st = Rebuild.Next st' ->
    Rebuild.remainder st' = "" /\
    (Rebuild.first st = false -> Rebuild.first st' = false).
Proof.
  induction node as [h ph b0 bd cs m sz IHcs _] using MimeNode_nested_ind.
  intros st st' Hs. rewrite Rebuild_walk_eq in Hs.
  unfold parsedHeaderGet in Hs. cbn [parsedHeader boundary childNodes] in Hs. cbv zeta in Hs.
  set (node := Build_MimeNode h ph b0 bd cs m sz) in *.
  assert (He : Rebuild.first st = false -> Rebuild.first (Rebuild.enter textOnly node st) = false).
  { intros Hf. unfold Rebuild.enter. cbn [Rebuild.first].
    destruct (negb textOnly || negb (Rebuild.root st)); [|exact Hf].
    apply Rebuild_append_state, Hf. }
  assert (Hloop : forall st0,
            match cs with
            | Some nodes => Rebuild.processChildNodes (Rebuild.walk w textOnly) node nodes st0
            | None => Rebuild.Next (Rebuild.finalize node st0)
            end = Rebuild.Next st' ->
            Rebuild.remainder st' = "" /\
            (Rebuild.first st0 = false -> Rebuild.first st' = false)).
  { intros st0 H0. destruct cs as [nodes|].
    - eapply processChildNodes_next_state; [|exact H0].
      simpl in IHcs. rewrite List.Forall_forall in IHcs |- *.
      intros child Hin. apply IHcs, Hin.
    - injection H0 as <-. apply Rebuild_finalize_state. }
  destruct (JS.truthy bd).
  - destruct (Hloop _ Hs) as [Hr Hf]. split; [exact Hr|].
    intros H0. apply Hf, Rebuild_append_state, He, H0.
  - destruct ph as [ph|]; [|discriminate Hs].
    destruct (JS.truthy (ph !! STREAM_URL)).
    + destruct (failed _); [discriminate Hs|]. injection Hs as <-.
      split; [apply Rebuild_finalize_state|].
      intros H0. apply Rebuild_finalize_state. unfold Rebuild.write. cbn [Rebuild.first].
      apply Rebuild_append_state, He, H0.
    + destruct (Hloop _ Hs) as [Hr Hf]. split; [exact Hr|].
      intros H0. apply Hf, He, H0.
Qed.

Lemma finalize_closing (node : MimeNode) (st : Rebuild.state) :
  JS.truthy (boundary node) = true ->
  Rebuild.remainder st = "" -> Rebuild.first st = false ->
  Rebuild.res (Rebuild.finalize node st) = (Rebuild.res st ++ [closingChunk node])%list.
Proof.
  intros Hb Hr Hf. unfold Rebuild.finalize, Rebuild.append, Rebuild.write, closingChunk.
  rewrite Hb, Hr, Hf. reflexivity.
Qed.

(** X6: the stream of a node with a boundary, when its walk completes,
    ends with the closing delimiter line "\r\n--boundary--\r\n", whatever
    the node and its parts hold. *)
Theorem multipart_ends_with_closing_delimiter (w : World) (textOnly : bool)
    (node : MimeNode) (st st' : Rebuild.state) :
  JS.truthy (boundary node) = true ->
  Rebuild.walk w textOnly node st = Rebuild.Next st' ->
  exists before, Rebuild.res st' = (before ++ [closingChunk node])%list.
Proof.
  intros Hb Hs. rewrite Rebuild_walk_eq in Hs. cbv zeta in Hs. rewrite Hb in Hs.
  set (opened := Rebuild.append (Some ("--" +:+ JS.toString (boundary node))) false
                   (Rebuild.enter textOnly node st)) in *.
  assert (Ho : Rebuild.remainder opened = "" /\ Rebuild.first opened = false).
  { unfold opened, Rebuild.append. rewrite orb_true_r. simpl. split; reflexivity. }
  destruct Ho as [Hor Hof].
  destruct (childNodes node) as [nodes|].
  - destruct (processChildNodes_next (Rebuild.walk w textOnly) node nodes) with (st := opened)
      (st' := st') as (st0 & -> & Hr0 & Hf0); try assumption.
    + rewrite List.Forall_forall. intros child _ s s'. apply walk_next_state.
    + eexists. apply finalize_closing; assumption.
  - injection Hs as <-. eexists. apply finalize_closing; assumption.
Qed.

Lemma multipart_ends_with_closing_delimiter_witness :
  exists before,
    chunks (runWalk Examples.world Scenario.forwardedMultipart false)
    = (before ++ [JS.CRLF +:+ "--b--" +:+ JS.CRLF])%list.
Proof.
  destruct (multipart_ends_with_closing_delimiter Examples.world false
              Scenario.forwardedMultipart Rebuild.init
              (Rebuild.State (chunks (runWalk Examples.world Scenario.forwardedMultipart false))
                 false false "")
              eq_refl ltac:(vm_compute; reflexivity)) as [before H].
  exists before. exact H.
Defined.

(** ** Resolved nodes *)

Lemma elementBefore_In {A : Type} (a : list A) (s : string) (x : A) :
  elementBefore a s = Some x -> In x a.
Proof.
  unfold elementBefore. destruct (JS.indexBefore (JS.Number s)) as [i|]; simpl; [|discriminate].
  intros H. apply list_elem_of_In. eapply list_elem_of_lookup_2. exact H.
Qed.

Lemma within_redirect (node tree : MimeNode) : within node (redirect tree) -> within node tree.
Proof.
  unfold redirect. destruct (message tree) as [nested|] eqn:E; [|auto].
  intros H. eapply within_message; eassumption.
Qed.

Lemma resolveLoop_within (segments : list string) :
  forall tree node, resolveLoop segments tree = Some node -> within node tree.
Proof.
  induction segments as [|seg rest IH]; intros tree node H.
  - injection H as <-. constructor.
  - destruct (nonEmpty seg) eqn:E.
    + rewrite (resolveLoop_cons seg rest tree E) in H.
      destruct (childNodes (redirect tree)) as [nodes|] eqn:Ec; [|discriminate H].
      destruct (elementBefore nodes seg) as [child|] eqn:Ee; [|discriminate H].
      apply within_redirect.
      eapply within_child; [exact Ec|eapply elementBefore_In; exact Ee|].
      apply IH, H.
    + destruct seg; [|discriminate E]. injection H as <-. constructor.
Qed.

(** X7: whatever the path, a node returned by [resolveContentNode] is a
    node of the tree: the root, or reached from it through childNodes and
    nested messages. *)
Theorem resolved_node_is_within_tree (tree node : MimeNode) (path : string) :
  resolveContentNode tree path = Some node -> within node tree.
Proof. unfold resolveContentNode. apply resolveLoop_within. Qed.

Lemma resolved_node_is_within_tree_witness :
  within (Examples.leaf ["Content-Type: text/plain"] ∅ "two") Scenario.forwardedMultipart.
Proof.
  apply (resolved_node_is_within_tree Scenario.forwardedMultipart _ "1.2").
  vm_compute. reflexivity.
Defined.

(** ** Paths of parts inside parts *)

Lemma split_nonempty (sep : ascii) (s : string) : JS.split sep s <> [].
Proof.
  destruct s as [|c s]; simpl; [discriminate|].
  destruct (Ascii.eqb c sep); [discriminate|].
  destruct (JS.split sep s); discriminate.
Qed.

Lemma split_app (sep : ascii) (a b : string) :
  JS.split sep (a +:+ String sep b) = (JS.split sep a ++ JS.split sep b)%list.
Proof.
  induction a as [|c a IH].
  - simpl. rewrite Ascii.eqb_refl. reflexivity.
  - change (String c a +:+ String sep b) with (String c (a +:+ String sep b)).
    cbn [JS.split]. rewrite IH.
    destruct (Ascii.eqb c sep); [reflexivity|].
    pose proof (split_nonempty sep a) as Hn.
    destruct (JS.split sep a) as [|seg segs]; [congruence|reflexivity].
Qed.

Lemma dotted_not_one (p q : string) : p +:+ String "." q <> "1".
Proof.
  destruct p as [|c [|c' p]]; simpl; try discriminate.
Qed.

(** X8: resolution composes along a dot.  When [p] is not the bare "1" on
    a root without childNodes and the segments of [p] are all non-empty,
    the path [p.q] is resolved by resolving [p] and then running the loop
    over the segments of [q] from the node found; this is the resolution
    of [q] in that node, unless [q] is the bare "1" and the node has no
    childNodes. *)
Theorem resolve_dotted_path (tree : MimeNode) (p q : string) :
  (childNodes tree = None -> p <> "1") ->
  Forall (fun seg => nonEmpty seg = true) (JS.split "." p) ->
  resolveContentNode tree (p +:+ String "." q)
  = match resolveContentNode tree p with
    | Some node => resolveLoop (JS.split "." q) node
    | None => None
    end /\
  (forall node, resolveContentNode tree p = Some node ->
     (childNodes node = None -> q <> "1") ->
     resolveContentNode tree (p +:+ String "." q) = resolveContentNode node q).
Proof.
  intros Hp Hsegs.
  assert (E : resolveContentNode tree (p +:+ String "." q)
              = match resolveContentNode tree p with
                | Some node => resolveLoop (JS.split "." q) node
                | None => None
                end).
  { rewrite (resolveContentNode_with_children tree p Hp).
    rewrite resolveContentNode_with_children by (intros _; apply dotted_not_one).
    rewrite split_app. apply resolveLoop_app, Hsegs. }
  split; [exact E|].
  intros node Hn Hq. rewrite E, Hn.
  symmetry. apply resolveContentNode_with_children, Hq.
Qed.

Lemma resolve_dotted_path_witness :
  resolveContentNode Scenario.forwardedMultipart "1.2"
  = match resolveContentNode Scenario.forwardedMultipart "1" with
    | Some node => resolveLoop ["2"] node
    | None => None
    end.
Proof.
  apply (resolve_dotted_path Scenario.forwardedMultipart "1" "2").
  - discriminate.
  - repeat constructor.
Defined.

(** The exception: in a part without childNodes the bare "1" is the part
    itself, but a path that continues with ".1" is not found. *)
Example resolve_dotted_path_exception :
  resolveContentNode Scenario.oneChild "1.1" = None /\
  (exists part, resolveContentNode Scenario.oneChild "1" = Some part /\
                resolveContentNode part "1" = Some part).
Proof.
  split; [reflexivity|].
  exists (Examples.leaf ["Content-Type: text/plain"] {[ "content-type" := "text/plain" ]} "Hi").
  split; reflexivity.
Qed.

(** ** Selected and rejected header fields *)

Lemma filter_partition {A : Type} (f : A -> bool) (l : list A) :
  Permutation (List.filter f l ++ List.filter (fun x => negb (f x)) l) l.
Proof.
  induction l as [|x l IH]; simpl; [constructor|].
  destruct (f x); simpl.
  - constructor. exact IH.
  - symmetry. apply Permutation_cons_app. symmetry. exact IH.
Qed.

(** X9: for the same non-empty set of names, "header.fields" and
    "header.fields.not" split the filtered header of the selected node: the
    lines of the two results together are the filtered lines, each one in
    exactly one of the two. *)
Theorem header_fields_partition (w : World) (tree node : MimeNode)
    (p : option string) (names : list string) :
  selectedNode tree (Build_selector p "header.fields" (Some names)) = Some node ->
  names <> [] ->
  exists chosen others,
    getContents w tree (Build_selector p "header.fields" (Some names))
    = Normal (Text (JS.join JS.CRLF chosen +:+ JS.CRLF +:+ JS.CRLF)) /\
    getContents w tree (Build_selector p "header.fields.not" (Some names))
    = Normal (Text (JS.join JS.CRLF others +:+ JS.CRLF +:+ JS.CRLF)) /\
    Permutation (chosen ++ others) (filterHeaders (header node)) /\
    (forall line, In line chosen -> ~ In line others).
Proof.
  intros Hn Hne.
  exists (List.filter (fun line => indexOfFound names (headerKey line))
            (filterHeaders (header node))),
         (List.filter (fun line => negb (indexOfFound names (headerKey line)))
            (filterHeaders (header node))).
  assert (Hno : forall t, noHeaders (Build_selector p t (Some names)) = false)
    by (intros t; unfold noHeaders; simpl; destruct names; [congruence|reflexivity]).
  unfold selectedNode in Hn. cbn [path] in Hn.
  split; [|split; [|split]].
  - unfold getContents, selectedNode. cbn [path type headers]. rewrite Hn.
    simpl String.eqb. cbn [orb]. rewrite Hno. reflexivity.
  - unfold getContents, selectedNode. cbn [path type headers]. rewrite Hn.
    simpl String.eqb. cbn [orb]. rewrite Hno. reflexivity.
  - apply filter_partition.
  - intros line [_ H1]%List.filter_In [_ H2]%List.filter_In.
    rewrite H1 in H2. discriminate H2.
Qed.

Lemma header_fields_partition_witness :
  exists chosen others,
    getContents Examples.world Examples.simple (Build_selector None "header.fields" (Some ["subject"]))
    = Normal (Text (JS.join JS.CRLF chosen +:+ JS.CRLF +:+ JS.CRLF)) /\
    getContents Examples.world Examples.simple (Build_selector None "header.fields.not" (Some ["subject"]))
    = Normal (Text (JS.join JS.CRLF others +:+ JS.CRLF +:+ JS.CRLF)) /\
    Permutation (chosen ++ others) ["Subject: hi"; "Content-Type: text/plain"] /\
    (forall line, In line chosen -> ~ In line others).
Proof.
  apply (header_fields_partition Examples.world Examples.simple Examples.simple None ["subject"]).
  - reflexivity.
  - discriminate.
Defined.

Lemma selected_header_filtered_witness :
  exists lines,
    getContents Examples.world Scenario.attachment (Build_selector None "mime" None)
    = Normal (Text (JS.join JS.CRLF lines +:+ JS.CRLF +:+ JS.CRLF)) /\
    sublist lines (filterHeaders (header Scenario.attachment)) /\
    sublist lines (default [] (header Scenario.attachment)) /\
    Forall (fun line => isAttachmentMarker line = false) lines.
Proof.
  apply (selected_header_filtered Examples.world Scenario.attachment Scenario.attachment
           (Build_selector None "mime" None)).
  - reflexivity.
  - right. right. right. reflexivity.
Defined.

(** ** The address of external content *)

Lemma dropTrailingGt_app (u : string) : dropTrailingGt (u +:+ ">") = u.
Proof.
  induction u as [|c u IH]; [reflexivity|].
  change (String c u +:+ ">") with (String c (u +:+ ">")).
  cbn [dropTrailingGt]. rewrite IH.
  destruct u; reflexivity.
Qed.

(** X11: the address of external content is stored between angle brackets
    and fetched without them: stripping "<u>" gives [u] back, whatever
    characters [u] holds (brackets of its own included). *)
Theorem angle_brackets_round_trip (u : string) :
  stripAngleBrackets ("<" +:+ u +:+ ">") = u.
Proof.
  unfold stripAngleBrackets. simpl. apply dropTrailingGt_app.
Qed.

(** ** Letter case of the marker *)

Lemma ascii_upper_lower_char (a c : ascii) :
  (JS.code (JS.ascii_upper a) <? 128)%N = true ->
  Ascii.eqb (JS.ascii_upper a) (JS.ascii_upper (JS.lower_char c))
  = Ascii.eqb (JS.ascii_upper a) (JS.ascii_upper c).
Proof.
  intros Ha.
  assert (H : JS.ascii_upper (JS.lower_char c) = JS.ascii_upper c \/
              ((JS.code (JS.ascii_upper (JS.lower_char c)) <? 128)%N = false /\
               (JS.code (JS.ascii_upper c) <? 128)%N = false)).
  { destruct c as [[] [] [] [] [] [] [] []]; vm_compute; auto. }
  destruct H as [->|[H1 H2]]; [reflexivity|].
  destruct (Ascii.eqb_spec (JS.ascii_upper a) (JS.ascii_upper (JS.lower_char c))) as [E|_];
    [rewrite E in Ha; congruence|].
  destruct (Ascii.eqb_spec (JS.ascii_upper a) (JS.ascii_upper c)) as [E|_];
    [rewrite E in Ha; congruence|reflexivity].
Qed.

Lemma prefix_ci_toLowerCase (p s : string) :
  asciiPattern p = true -> JS.prefix_ci p (JS.toLowerCase s) = JS.prefix_ci p s.
Proof.
  revert s. induction p as [|a p IH]; intros s Hp; [destruct s; reflexivity|].
  simpl in Hp. apply andb_prop in Hp as [Ha Hp].
  destruct s as [|c s]; [reflexivity|].
  simpl. rewrite (ascii_upper_lower_char a c Ha), (IH s Hp). reflexivity.
Qed.

(** X12: the filter does not depend on the letter case of the lines:
    lower-casing a line does not change whether it is a marker line, so
    filtering commutes with lower-casing the header. *)
Theorem filterHeaders_letter_case (h : list string) :
  (forall line, isAttachmentMarker (JS.toLowerCase line) = isAttachmentMarker line) /\
  filterHeaders (Some (List.map JS.toLowerCase h))
  = List.map JS.toLowerCase (filterHeaders (Some h)).
Proof.
  assert (E : forall line, isAttachmentMarker (JS.toLowerCase line) = isAttachmentMarker line)
    by (intros line; apply prefix_ci_toLowerCase; reflexivity).
  split; [exact E|].
  unfold filterHeaders. simpl.
  induction h as [|x h IH]; simpl; [reflexivity|].
  rewrite E, IH. destruct (isAttachmentMarker x); reflexivity.
Qed.

(** ** Single-part messages *)

(** X13: a node that has a parsedHeader object, a non-empty body and
    nothing else (no boundary, no marker, no child) is rebuilt as its
    filtered header lines, a blank line and the body, byte for byte; its
    text alone is the body. *)
Theorem single_part_message (w : World) (node : MimeNode) (ph : gmap string string)
    (content : string) :
  parsedHeader node = Some ph ->
  JS.truthy (ph !! STREAM_URL) = false ->
  JS.truthy (boundary node) = false ->
  hasChildren node = false ->
  body node = Some content ->
  JS.truthy (Some content) = true ->
  runWalk w node true = Build_stream [content] Ended /\
  runWalk w node false = Build_stream [headerBlock node; JS.CRLF +:+ content] Ended /\
  materialize (runWalk w node false)
  = JS.join JS.CRLF (filterHeaders (header node)) +:+ JS.CRLF +:+ JS.CRLF +:+ content.
Proof.
  intros Hph Hu Hbd Hc Hb Ht.
  assert (E : forall textOnly st,
            Rebuild.walk w textOnly node st
            = Rebuild.Next (Rebuild.finalize node (Rebuild.enter textOnly node st))).
  { intros textOnly st. rewrite Rebuild_walk_eq. cbv zeta.
    unfold parsedHeaderGet. rewrite Hbd, Hph, Hu.
    unfold hasChildren in Hc. destruct (childNodes node) as [[|c l]|];
      [reflexivity|discriminate Hc|reflexivity]. }
  assert (F : forall st, Rebuild.res (Rebuild.finalize node (Rebuild.State st (nothingWritten st) false content))
                         = (st ++ [(if nothingWritten st then "" else JS.CRLF) +:+ content])%list).
  { intros st. unfold Rebuild.finalize, Rebuild.append, Rebuild.write. rewrite Hbd.
    cbn [Rebuild.remainder Rebuild.res Rebuild.first Rebuild.root].
    rewrite Ht. cbn [orb Rebuild.remainder Rebuild.res Rebuild.first Rebuild.root JS.orEmpty].
    rewrite (append_empty_r content). reflexivity. }
  assert (T : runWalk w node true = Build_stream [content] Ended).
  { unfold runWalk. rewrite E. f_equal.
    unfold Rebuild.enter, Rebuild.init. cbn [negb orb Rebuild.root Rebuild.res Rebuild.first].
    rewrite Hb. cbn [JS.orEmpty]. exact (F []). }
  assert (G : runWalk w node false = Build_stream [headerBlock node; JS.CRLF +:+ content] Ended).
  { unfold runWalk. rewrite E. f_equal.
    unfold Rebuild.enter, Rebuild.init, Rebuild.append, Rebuild.write.
    cbn [negb orb Rebuild.root Rebuild.res Rebuild.first Rebuild.remainder].
    rewrite headerBlock_truthy, orb_true_r.
    cbn [Rebuild.root Rebuild.res Rebuild.first Rebuild.remainder].
    rewrite Hb. cbn [JS.orEmpty]. exact (F [headerBlock node]). }
  split; [exact T|]. split; [exact G|].
  rewrite G. unfold materialize, headerBlock. cbn [chunks String.concat].
  rewrite !append_assoc. reflexivity.
Qed.

Lemma single_part_message_witness :
  runWalk Examples.world Examples.simple true = Build_stream ["Hello"] Ended /\
  materialize (runWalk Examples.world Examples.simple false)
  = "Subject: hi" +:+ JS.CRLF +:+ "Content-Type: text/plain" +:+ JS.CRLF +:+ JS.CRLF +:+ "Hello".
Proof.
  destruct (single_part_message Examples.world Examples.simple
              {[ "subject" := "hi"; "content-type" := "text/plain" ]} "Hello"
              eq_refl ltac:(vm_compute; reflexivity) eq_refl eq_refl eq_refl eq_refl)
    as (H1 & _ & H3).
  split; [exact H1|exact H3].
Defined.

(** ** Segments that are written differently *)

Lemma digits_count_irrelevant (base : N) (s : string) (acc : N) (c c' : nat) :
  fst (fst (JS.digits base s acc c)) = fst (fst (JS.digits base s acc c')).
Proof.
  revert acc c c'. induction s as [|x s IH]; intros acc c c'; simpl; [reflexivity|].
  destruct (JS.digitValue base x); [apply IH|reflexivity].
Qed.

Lemma Number_zero_padded (i : nat) :
  JS.Number (String "0" (JS.decimal i)) = JS.Number (JS.decimal i).
Proof.
  rewrite Number_decimal.
  rewrite Number_allDigits, unsignedDecimal_allDigits;
    try reflexivity; try (simpl; apply allDigits_string_of_uint).
  f_equal. cbn [JS.digits]. change (JS.digitValue 10 "0") with (Some 0%N). cbv iota.
  rewrite (digits_count_irrelevant 10 _ _ 1 0).
  unfold JS.decimal. change (0 * 10 + 0)%N with (N.of_nat 0).
  rewrite digits_string_of_uint. simpl.
  change (Nat.of_uint_acc (Nat.to_uint i) 0) with (Nat.of_uint (Nat.to_uint i)).
  rewrite DecimalNat.Unsigned.of_to. reflexivity.
Qed.

Lemma trimEnd_digits_space (d : string) :
  allDigits d = true -> JS.trimEnd (d +:+ " ") = d.
Proof.
  induction d as [|c d IH]; [reflexivity|].
  intros [Hc Hd]%andb_prop.
  change (String c d +:+ " ") with (String c (d +:+ " ")).
  cbn [JS.trimEnd]. rewrite (IH Hd).
  destruct d; [|reflexivity]. digit_case c Hc; reflexivity.
Qed.

Lemma Number_blank_padded (i : nat) :
  JS.Number (String " " (JS.decimal i +:+ " ")) = JS.Number (JS.decimal i).
Proof.
  unfold JS.Number at 1 2. f_equal.
  assert (Hd : allDigits (JS.decimal i) = true) by apply allDigits_string_of_uint.
  unfold JS.trim. cbn [JS.trimStart]. change (JS.isWhiteSpace " ") with true. cbv iota.
  pose proof (decimal_nonEmpty i) as Hne.
  assert (E : JS.trimStart (JS.decimal i +:+ " ") = JS.decimal i +:+ " ").
  { destruct (JS.decimal i) as [|c d]; [discriminate Hne|].
    simpl in Hd. apply andb_prop in Hd as [Hc _].
    change (String c d +:+ " ") with (String c (d +:+ " ")).
    cbn [JS.trimStart]. digit_case c Hc; reflexivity. }
  rewrite E, (trimEnd_digits_space _ Hd), (trimStart_allDigits _ Hd), (trimEnd_allDigits _ Hd).
  reflexivity.
Qed.

Lemma split_without_dot (s : string) :
  List.existsb (Ascii.eqb ".") (list_ascii_of_string s) = false -> JS.split "." s = [s].
Proof.
  induction s as [|c s IH]; [reflexivity|].
  cbn [list_ascii_of_string List.existsb JS.split].
  intros [Hc Hs]%orb_false_elim. rewrite Ascii.eqb_sym, Hc, (IH Hs). reflexivity.
Qed.

Lemma decimal_without_dot (i : nat) :
  List.existsb (Ascii.eqb ".") (list_ascii_of_string (JS.decimal i)) = false.
Proof.
  unfold JS.decimal. induction (Nat.to_uint i); cbn [NilEmpty.string_of_uint list_ascii_of_string List.existsb]; auto.
Qed.

Lemma existsb_dot_app (a b : string) :
  List.existsb (Ascii.eqb ".") (list_ascii_of_string (a +:+ b))
  = List.existsb (Ascii.eqb ".") (list_ascii_of_string a)
    || List.existsb (Ascii.eqb ".") (list_ascii_of_string b).
Proof.
  induction a as [|c a IH]; [reflexivity|].
  change (String c a +:+ b) with (String c (a +:+ b)).
  cbn [list_ascii_of_string List.existsb]. rewrite IH, orb_assoc. reflexivity.
Qed.

(** X14: a path segment is read as a number, so a segment written with a
    leading zero or between blanks selects the same part as the plain
    decimal segment (on a root without childNodes only the plain "1" is
    the root itself). *)
Theorem padded_segment_resolves_alike (tree : MimeNode) (i : nat) :
  (childNodes tree = None -> i <> 1%nat) ->
  resolveContentNode tree (String "0" (JS.decimal i)) = resolveContentNode tree (JS.decimal i) /\
  resolveContentNode tree (String " " (JS.decimal i +:+ " "))
  = resolveContentNode tree (JS.decimal i).
Proof.
  intros Hi.
  assert (Hd : childNodes tree = None -> JS.decimal i <> "1").
  { intros Hn E. apply (Hi Hn).
    pose proof (Number_decimal i) as Hnum. rewrite E in Hnum.
    change (JS.Number "1") with (JS.Finite false 1 0) in Hnum.
    injection Hnum as Hnum. lia. }
  pose proof (decimal_nonEmpty i) as Hne.
  assert (H : forall s, JS.Number s = JS.Number (JS.decimal i) -> nonEmpty s = true ->
              s <> "1" \/ childNodes tree <> None ->
              List.existsb (Ascii.eqb ".") (list_ascii_of_string s) = false ->
              resolveContentNode tree s = resolveContentNode tree (JS.decimal i)).
  { intros s Hs Hn H1 Hdot.
    rewrite (resolveContentNode_with_children tree (JS.decimal i) Hd).
    rewrite resolveContentNode_with_children by (intros E; destruct H1; congruence).
    rewrite (split_without_dot s Hdot), (split_without_dot _ (decimal_without_dot i)).
    rewrite !resolveLoop_cons by assumption.
    unfold elementBefore. rewrite Hs. reflexivity. }
  split.
  - apply H.
    + apply Number_zero_padded.
    + reflexivity.
    + left. destruct (JS.decimal i); [discriminate Hne|discriminate].
    + simpl. apply decimal_without_dot.
  - apply H.
    + apply Number_blank_padded.
    + reflexivity.
    + left. discriminate.
    + simpl. rewrite existsb_dot_app, decimal_without_dot. reflexivity.
Qed.

Lemma padded_segment_resolves_alike_witness :
  resolveContentNode Scenario.oneChild "01" = resolveContentNode Scenario.oneChild "1" /\
  resolveContentNode Scenario.oneChild " 1 " = resolveContentNode Scenario.oneChild "1".
Proof.
  apply (padded_segment_resolves_alike Scenario.oneChild 1). discriminate.
Defined.
